(** * TeleVault offline upload queue: a model of [offlineQueueService.ts]

    The service keeps an ordered queue of uploads in AsyncStorage under one
    key, drains it when the device is online, and broadcasts every change to
    its subscribers.  The model below follows the TypeScript class method by
    method.  Effects are threaded through a state-and-exception monad over a
    [World] that holds the storage cell, the fields of the service object, a
    clock that indexes the answers of the outside world (storage faults,
    connectivity, the Telegram client, dates and identifiers) and a trace of
    the observable calls that were made.

    Of the services the queue calls, [handleError] and [uploadWithRetry] of
    the Telegram client and [openDatabase], [insertFile] and [deleteFile] of
    the database service are modelled as well, the latter over a state of
    their own.

    Console output is not modelled.  A listener is modelled by its identity
    and by whether it throws on a snapshot; what a listener does with the
    snapshot is outside the service. *)

From Stdlib Require Import String List Arith Bool Lia DecimalString.
Import ListNotations.
Local Open Scope string_scope.
Local Open Scope nat_scope.
Local Open Scope list_scope.

(* ===================================================================== *)
(** ** Data model *)
(* ===================================================================== *)

(** [status: 'pending' | 'uploading' | 'completed' | 'failed'] *)
Inductive Status : Type := pending | uploading | completed | failed.

Definition Status_eqb (a b : Status) : bool :=
  match a, b with
  | pending, pending | uploading, uploading
  | completed, completed | failed, failed => true
  | _, _ => false
  end.

Record FileInfo : Type := mkFileInfo {
  uri : string;
  name : string;
  type : string;
  size : nat
}.

Record Metadata : Type := mkMetadata {
  tags : string;
  category : string;
  uploader : string;
  chatId : string
}.

(** [interface QueuedUpload].  The optional fields [lastAttempt?] and
    [error?] are [None] when the property is absent or [undefined]. *)
Record QueuedUpload : Type := mkQueuedUpload {
  id : string;
  file : FileInfo;
  metadata : Metadata;
  status : Status;
  attempts : nat;
  lastAttempt : option string;
  error : option string;
  createdAt : string
}.

Definition Queue : Type := list QueuedUpload.

Definition set_status (s : Status) (u : QueuedUpload) : QueuedUpload :=
  mkQueuedUpload (id u) (file u) (metadata u) s (attempts u)
                 (lastAttempt u) (error u) (createdAt u).

Definition set_attempts (n : nat) (u : QueuedUpload) : QueuedUpload :=
  mkQueuedUpload (id u) (file u) (metadata u) (status u) n
                 (lastAttempt u) (error u) (createdAt u).

Definition set_lastAttempt (t : option string) (u : QueuedUpload) : QueuedUpload :=
  mkQueuedUpload (id u) (file u) (metadata u) (status u) (attempts u)
                 t (error u) (createdAt u).

Definition set_error (e : option string) (u : QueuedUpload) : QueuedUpload :=
  mkQueuedUpload (id u) (file u) (metadata u) (status u) (attempts u)
                 (lastAttempt u) e (createdAt u).

(** [FileMetadata] of databaseService.ts, the record handed to [insertFile]. *)
Record FileMetadata : Type := mkFileMetadata {
  fileId : string;
  fileName : string;
  mimeType : string;
  fileSize : nat;
  fm_tags : string;
  fm_category : string;
  uploadedAt : string;
  fm_uploader : string;
  fm_chatId : string
}.

(** A thrown JavaScript value, as far as the service looks at it: the catch
    block of [processUpload] reads [error.message]. *)
Record Exn : Type := mkExn { message : option string }.

(** What [telegramService.sendDocument] resolves to, as far as the service
    looks at it: [response.result.document.file_id], with [None] when
    [result.document] is missing from the response. *)
Record TelegramResponse : Type := mkResponse { result_document : option string }.

(** The text AsyncStorage holds under the key: the empty string, the JSON
    serialisation of a queue, or text that [JSON.parse] rejects.
    [JSON.stringify] followed by [JSON.parse] is the identity on queues of
    this record type ([error: undefined] is dropped and read back absent). *)
Inductive StoredText : Type :=
| TextEmpty
| TextJson (queue : Queue)
| TextGarbage.

(** A subscriber: a function value, compared by identity in [unsubscribe],
    that may throw when it is called with a snapshot. *)
Record Listener : Type := mkListener {
  lid : nat;
  lthrows : Queue -> bool
}.

(** Observable calls, oldest first in [trace]. *)
Inductive Event : Type :=
| EvGetItem
| EvSetItem (queue : Queue) (stored : bool)
| EvListener (l : nat) (queue : Queue)
| EvNetInfoFetch
| EvSendDocument (upload : QueuedUpload)
| EvInsertFile (m : FileMetadata)
| EvDelay (ms : nat)
| EvProcessQueue.

(** Where an un-awaited [processQueue()] call is suspended (see
    [resume] below). *)
Inductive DrainPc : Type :=
| AwaitNetInfo
| AwaitQueue
| AwaitItems (pendingUploads : list QueuedUpload)
| Returned.

Record World : Type := mkWorld {
  storage : option StoredText;   (* AsyncStorage value under QUEUE_KEY *)
  isProcessing : bool;           (* private isProcessing *)
  listeners : list Listener;     (* private listeners *)
  clock : nat;                   (* number of outside calls made so far *)
  trace : list Event;
  tasks : list DrainPc           (* un-awaited processQueue() calls *)
}.

(** The answers of the outside world, indexed by the clock value at which
    the call is made, and the message the JavaScript engine gives the
    [TypeError] it throws when a property of [undefined] is read (its text
    is the engine's own). *)
Record Env : Type := mkEnv {
  getItem_rejects : nat -> bool;
  setItem_rejects : nat -> bool;
  net_isConnected : nat -> bool;
  sendDocument_result : nat -> QueuedUpload -> Exn + TelegramResponse;
  date_toISOString : nat -> string;
  generateId_result : nat -> string;
  typeError_message : string
}.

Definition QUEUE_KEY : string := "upload_queue".
Definition MAX_RETRIES : nat := 3.

(* ===================================================================== *)
(** ** The monad: state plus JavaScript exceptions *)
(* ===================================================================== *)

Inductive Result (A : Type) : Type :=
| Ok (a : A)
| Throw (e : Exn).
Arguments Ok {A} a.
Arguments Throw {A} e.

Definition M (A : Type) : Type := World -> Result A * World.

Definition ret {A} (a : A) : M A := fun w => (Ok a, w).

Definition bind {A B} (c : M A) (k : A -> M B) : M B :=
  fun w => match c w with
           | (Ok a, w') => k a w'
           | (Throw e, w') => (Throw e, w')
           end.

Definition throw {A} (e : Exn) : M A := fun w => (Throw e, w).

(** [try { body } catch (error) { handler }]: the state reached when the
    exception was thrown is kept. *)
Definition try_catch {A} (body : M A) (handler : Exn -> M A) : M A :=
  fun w => match body w with
           | (Ok a, w') => (Ok a, w')
           | (Throw e, w') => handler e w'
           end.

Declare Scope monad_scope.
Delimit Scope monad_scope with monad.
Notation "x <- c ;; k" := (bind c (fun x => k))
  (at level 61, c at next level, right associativity) : monad_scope.
Notation "c ;; k" := (bind c (fun _ => k))
  (at level 61, right associativity) : monad_scope.
Local Open Scope monad_scope.

Definition gets {A} (f : World -> A) : M A := fun w => (Ok (f w), w).
Definition modify (f : World -> World) : M unit := fun w => (Ok tt, f w).

Definition exec {A} (c : M A) (w : World) : World := snd (c w).
Definition outcome {A} (c : M A) (w : World) : Result A := fst (c w).

Fixpoint forEach {A} (f : A -> M unit) (l : list A) : M unit :=
  match l with
  | [] => ret tt
  | x :: rest => f x ;; forEach f rest
  end.

Definition with_storage (s : option StoredText) (w : World) : World :=
  mkWorld s (isProcessing w) (listeners w) (clock w) (trace w) (tasks w).
Definition with_isProcessing (b : bool) (w : World) : World :=
  mkWorld (storage w) b (listeners w) (clock w) (trace w) (tasks w).
Definition with_listeners (ls : list Listener) (w : World) : World :=
  mkWorld (storage w) (isProcessing w) ls (clock w) (trace w) (tasks w).
Definition with_clock (n : nat) (w : World) : World :=
  mkWorld (storage w) (isProcessing w) (listeners w) n (trace w) (tasks w).
Definition with_trace (t : list Event) (w : World) : World :=
  mkWorld (storage w) (isProcessing w) (listeners w) (clock w) t (tasks w).
Definition with_tasks (ts : list DrainPc) (w : World) : World :=
  mkWorld (storage w) (isProcessing w) (listeners w) (clock w) (trace w) ts.

(** One outside call: read the clock and advance it. *)
Definition tick : M nat :=
  fun w => (Ok (clock w), with_clock (S (clock w)) w).

Definition emit (e : Event) : M unit :=
  modify (fun w => with_trace (trace w ++ [e]) w).

(** The queue that is persisted, as a later successful load reads it. *)
Definition persisted (w : World) : Queue :=
  match storage w with
  | Some (TextJson q) => q
  | _ => []
  end.

(* ===================================================================== *)
(** ** The service *)
(* ===================================================================== *)

Section Service.

Variable E : Env.

Definition storage_error : Exn := mkExn (Some "AsyncStorage error").
Definition syntax_error : Exn := mkExn (Some "JSON Parse error").
Definition type_error : Exn := mkExn (Some (typeError_message E)).
Definition listener_error : Exn := mkExn (Some "listener error").

(** [AsyncStorage.getItem(QUEUE_KEY)]: rejects, or resolves to the stored
    text ([null] when the key is absent). *)
Definition AsyncStorage_getItem : M (option StoredText) :=
  n <- tick ;;
  emit EvGetItem ;;
  if getItem_rejects E n then throw storage_error
  else gets storage.

(** [AsyncStorage.setItem(QUEUE_KEY, JSON.stringify(queue))]: a rejected
    write leaves the stored text as it was. *)
Definition AsyncStorage_setItem (queue : Queue) : M unit :=
  n <- tick ;;
  if setItem_rejects E n then
    emit (EvSetItem queue false) ;; throw storage_error
  else
    modify (with_storage (Some (TextJson queue))) ;;
    emit (EvSetItem queue true).

Definition JSON_parse (t : StoredText) : M Queue :=
  match t with
  | TextJson q => ret q
  | TextEmpty | TextGarbage => throw syntax_error
  end.

(** JavaScript truthiness of a string: only the empty string is falsy. *)
Definition truthy (t : StoredText) : bool :=
  match t with
  | TextEmpty => false
  | _ => true
  end.

(** [async getQueue()] *)
Definition getQueue : M Queue :=
  try_catch
    (queueJson <- AsyncStorage_getItem ;;
     match queueJson with
     | Some t => if truthy t then JSON_parse t else ret []
     | None => ret []
     end)
    (fun error => ret []).

(** [private async saveQueue(queue)] *)
Definition saveQueue (queue : Queue) : M unit :=
  try_catch (AsyncStorage_setItem queue) (fun error => ret tt).

(** One call [listener(queue)]. *)
Definition call_listener (queue : Queue) (listener : Listener) : M unit :=
  emit (EvListener (lid listener) queue) ;;
  if lthrows listener queue then throw listener_error else ret tt.

(** [private notifyListeners(queue)] *)
Definition notifyListeners (queue : Queue) : M unit :=
  ls <- gets listeners ;;
  forEach (fun listener =>
             try_catch (call_listener queue listener) (fun error => ret tt))
          ls.

(** [subscribe(listener)]; the function it returns is [unsubscribe]. *)
Definition subscribe (listener : Listener) : M unit :=
  modify (fun w => with_listeners (listeners w ++ [listener]) w).

Definition unsubscribe (listener : Listener) : M unit :=
  modify (fun w =>
    with_listeners
      (filter (fun l => negb (lid l =? lid listener)%nat) (listeners w)) w).

(** [Array.prototype.findIndex]; [None] stands for [-1]. *)
Fixpoint findIndex {A} (p : A -> bool) (l : list A) : option nat :=
  match l with
  | [] => None
  | x :: rest => if p x then Some 0
                 else match findIndex p rest with
                      | Some i => Some (S i)
                      | None => None
                      end
  end.

(** The in-place update [queue[i] = f(queue[i])] of an index that
    [findIndex] returned; an index past the end changes nothing. *)
Fixpoint update_at {A} (i : nat) (f : A -> A) (l : list A) : list A :=
  match l, i with
  | [], _ => []
  | x :: rest, 0 => f x :: rest
  | x :: rest, S j => x :: update_at j f rest
  end.

(** [new Date().toISOString()] *)
Definition Date_toISOString : M string :=
  n <- tick ;; ret (date_toISOString E n).

(** [private generateId()] *)
Definition generateId : M string :=
  n <- tick ;; ret (generateId_result E n).

(** [NetInfo.fetch()], read at [.isConnected] ([null] counts as false). *)
Definition NetInfo_fetch : M bool :=
  n <- tick ;;
  emit EvNetInfoFetch ;;
  ret (net_isConnected E n).

(** [private delay(ms)] *)
Definition delay (ms : nat) : M unit := emit (EvDelay ms).

(** [telegramService.sendDocument(upload.metadata.chatId, formData, caption)]:
    the chat, the form data and the caption are all built from [upload]. *)
Definition telegramService_sendDocument (upload : QueuedUpload)
  : M TelegramResponse :=
  n <- tick ;;
  emit (EvSendDocument upload) ;;
  match sendDocument_result E n upload with
  | inl e => throw e
  | inr response => ret response
  end.

(** [response.result.document.file_id] *)
Definition response_file_id (response : TelegramResponse) : M string :=
  match result_document response with
  | Some file_id => ret file_id
  | None => throw type_error
  end.

(** [databaseService.openDatabase()] followed by
    [databaseService.insertFile(metadata)]: both catch their own errors. *)
Definition databaseService_insertFile (m : FileMetadata) : M unit :=
  emit (EvInsertFile m).

(** [error.message || fallback] *)
Definition message_or (e : Exn) (fallback : string) : string :=
  match message e with
  | Some m => if (m =? "")%string then fallback else m
  | None => fallback
  end.

Definition mark_uploading (now : string) (u : QueuedUpload) : QueuedUpload :=
  set_lastAttempt (Some now) (set_attempts (attempts u + 1) (set_status uploading u)).

Definition mark_completed (u : QueuedUpload) : QueuedUpload :=
  set_error None (set_status completed u).

Definition mark_failed (msg : string) (u : QueuedUpload) : QueuedUpload :=
  set_error (Some msg) (set_status failed u).

Definition mark_pending (msg : string) (u : QueuedUpload) : QueuedUpload :=
  set_error (Some msg) (set_status pending u).

(** The [try { ... } catch (error) { ... }] statement of [processUpload]:
    it yields [queue] after the assignments of the branch that completes.
    [upload] is the object the caller of [processUpload] holds; the catch
    block compares its [attempts] with [MAX_RETRIES]. *)
Definition attempt_transfer (upload : QueuedUpload) (uploadIndex : nat)
    (queue : Queue) : M Queue :=
  try_catch
    (response <- telegramService_sendDocument upload ;;
     file_id <- response_file_id response ;;
     uploadedAt <- Date_toISOString ;;
     databaseService_insertFile
       (mkFileMetadata file_id (name (file upload)) (type (file upload))
          (size (file upload)) (tags (metadata upload))
          (category (metadata upload)) uploadedAt
          (uploader (metadata upload)) (chatId (metadata upload))) ;;
     ret (update_at uploadIndex mark_completed queue))
    (fun error =>
       if (MAX_RETRIES <=? attempts upload)%nat then
         ret (update_at uploadIndex
                (mark_failed (message_or error "Upload failed after max retries"))
                queue)
       else
         ret (update_at uploadIndex
                (mark_pending (message_or error "Upload failed, will retry"))
                queue)).

(** [private async processUpload(upload)].  [queue] is loaded afresh from
    the storage, so the increment of [queue[uploadIndex].attempts] does not
    reach [upload.attempts]. *)
Definition processUpload (upload : QueuedUpload) : M unit :=
  queue <- getQueue ;;
  match findIndex (fun u => (id u =? id upload)%string) queue with
  | None => ret tt
  | Some uploadIndex =>
      now <- Date_toISOString ;;
      let queue := update_at uploadIndex (mark_uploading now) queue in
      saveQueue queue ;;
      notifyListeners queue ;;
      queue <- attempt_transfer upload uploadIndex queue ;;
      saveQueue queue ;;
      notifyListeners queue
  end.

(** The filter of [processQueue]. *)
Definition eligible (upload : QueuedUpload) : bool :=
  Status_eqb (status upload) pending
  || (Status_eqb (status upload) failed && (attempts upload <? MAX_RETRIES)%nat).

(** The body of the [for ... of] loop of [processQueue]. *)
Definition drain_item (upload : QueuedUpload) : M unit :=
  try_catch (processUpload upload ;; delay 1000) (fun error => ret tt).

(** [async processQueue()], awaited, with no other task running between
    its suspension points. *)
Definition processQueue : M unit :=
  emit EvProcessQueue ;;
  p <- gets isProcessing ;;
  if p then ret tt else
  netInfo <- NetInfo_fetch ;;
  if negb netInfo then ret tt else
  modify (with_isProcessing true) ;;
  queue <- getQueue ;;
  let pendingUploads := filter eligible queue in
  forEach drain_item pendingUploads ;;
  modify (with_isProcessing false).

(** *** [processQueue] as a task

    [this.processQueue()] without [await] runs up to the first [await] and
    leaves a task behind.  The task is resumed at three of its suspension
    points: after [NetInfo.fetch()], after [getQueue()], and once per loop
    iteration.  The suspension points inside [processUpload] are not
    exposed: a schedule of this machine is a schedule of the program in
    which no other task runs during one [processUpload]. *)

Definition processQueue_call : M unit :=
  emit EvProcessQueue ;;
  p <- gets isProcessing ;;
  if p then ret tt
  else modify (fun w => with_tasks (tasks w ++ [AwaitNetInfo]) w).

Definition next_item (rest : list QueuedUpload) : M DrainPc :=
  match rest with
  | [] => modify (with_isProcessing false) ;; ret Returned
  | _ :: _ => ret (AwaitItems rest)
  end.

Definition resume_pc (pc : DrainPc) : M DrainPc :=
  match pc with
  | AwaitNetInfo =>
      netInfo <- NetInfo_fetch ;;
      if negb netInfo then ret Returned
      else modify (with_isProcessing true) ;; ret AwaitQueue
  | AwaitQueue =>
      queue <- getQueue ;;
      next_item (filter eligible queue)
  | AwaitItems [] => next_item []
  | AwaitItems (upload :: rest) =>
      drain_item upload ;; next_item rest
  | Returned => ret Returned
  end.

(** Resume the [i]-th task of the pool by one step. *)
Definition resume (i : nat) : M unit :=
  ts <- gets tasks ;;
  match nth_error ts i with
  | None => ret tt
  | Some pc =>
      pc' <- resume_pc pc ;;
      modify (fun w => with_tasks (update_at i (fun _ => pc') (tasks w)) w)
  end.

(** [setupNetworkListener]: the callback registered with
    [NetInfo.addEventListener]. *)
Definition onNetworkChange (state_isConnected : bool) : M unit :=
  p <- gets isProcessing ;;
  if state_isConnected && negb p then processQueue_call else ret tt.

(** [async addToQueue(file, tags, category, uploader, chatId)] *)
Definition addToQueue (file : FileInfo) (tags category uploader chatId : string)
  : M string :=
  new_id <- generateId ;;
  now <- Date_toISOString ;;
  let upload :=
    mkQueuedUpload new_id
      (mkFileInfo (uri file) (name file) (type file) (size file))
      (mkMetadata tags category uploader chatId)
      pending 0 None None now in
  queue <- getQueue ;;
  let queue := queue ++ [upload] in
  saveQueue queue ;;
  notifyListeners queue ;;
  netInfo <- NetInfo_fetch ;;
  (if netInfo then processQueue_call else ret tt) ;;
  ret (id upload).

(** [async removeFromQueue(uploadId)] *)
Definition removeFromQueue (uploadId : string) : M unit :=
  queue <- getQueue ;;
  let filteredQueue := filter (fun upload => negb (id upload =? uploadId)%string) queue in
  saveQueue filteredQueue ;;
  notifyListeners filteredQueue.

(** [async clearCompleted()] *)
Definition clearCompleted : M unit :=
  queue <- getQueue ;;
  let activeQueue := filter (fun upload => negb (Status_eqb (status upload) completed)) queue in
  saveQueue activeQueue ;;
  notifyListeners activeQueue.

(** [async clearQueue()] *)
Definition clearQueue : M unit :=
  saveQueue [] ;;
  notifyListeners [].

Record QueueStats : Type := mkQueueStats {
  st_total : nat;
  st_pending : nat;
  st_uploading : nat;
  st_completed : nat;
  st_failed : nat
}.

(** [async getQueueStats()] *)
Definition getQueueStats : M QueueStats :=
  queue <- getQueue ;;
  let count s := length (filter (fun u => Status_eqb (status u) s) queue) in
  ret (mkQueueStats (length queue) (count pending) (count uploading)
                    (count completed) (count failed)).

(** The callback of the [forEach] in [retryFailedUploads]. *)
Definition rearm (upload : QueuedUpload) : QueuedUpload :=
  if Status_eqb (status upload) failed && (attempts upload <? MAX_RETRIES)%nat
  then set_error None (set_status pending upload)
  else upload.

(** [async retryFailedUploads()] *)
Definition retryFailedUploads : M unit :=
  queue <- getQueue ;;
  let queue := map rearm queue in
  saveQueue queue ;;
  notifyListeners queue ;;
  processQueue_call.

(** [async isOnline()] *)
Definition isOnline : M bool :=
  netInfo <- NetInfo_fetch ;;
  ret (netInfo || false).

End Service.

(* ===================================================================== *)
(** ** Reading worlds and traces *)
(* ===================================================================== *)

(** The uploads handed to the Telegram client, in call order. *)
Fixpoint sent (tr : list Event) : list QueuedUpload :=
  match tr with
  | [] => []
  | EvSendDocument upload :: rest => upload :: sent rest
  | _ :: rest => sent rest
  end.

(** The listener calls one [notifyListeners(queue)] makes. *)
Definition broadcast (ls : list Listener) (queue : Queue) : list Event :=
  map (fun l => EvListener (lid l) queue) ls.

(** Every write of the queue is followed at once by the calls of all
    listeners, in subscription order, with the queue that was written. *)
Fixpoint well_broadcast (ls : list Listener) (tr : list Event) : Prop :=
  match tr with
  | [] => True
  | EvSetItem queue _ :: rest =>
      firstn (length ls) rest = broadcast ls queue /\ well_broadcast ls rest
  | _ :: rest => well_broadcast ls rest
  end.

(** What [getQueue] returns in world [w]. *)
Definition loaded (E : Env) (w : World) : Queue :=
  if getItem_rejects E (clock w) then [] else persisted w.

Definition after_get (w : World) : World :=
  mkWorld (storage w) (isProcessing w) (listeners w) (S (clock w))
          (trace w ++ [EvGetItem]) (tasks w).

Definition after_save (E : Env) (queue : Queue) (w : World) : World :=
  mkWorld (if setItem_rejects E (clock w) then storage w
           else Some (TextJson queue))
          (isProcessing w) (listeners w) (S (clock w))
          (trace w ++ [EvSetItem queue (negb (setItem_rejects E (clock w)))])
          (tasks w).

Definition after_notify (queue : Queue) (w : World) : World :=
  with_trace (trace w ++ broadcast (listeners w) queue) w.

(** The service fields a queue operation never touches. *)
Definition same_service (w w' : World) : Prop :=
  listeners w' = listeners w /\ tasks w' = tasks w.

(** Entry by entry, [q'] has the identifiers of [q], and differs from it at
    most at entries whose identifier is in [ids]. *)
Definition touched_only (ids : list string) (q q' : Queue) : Prop :=
  Forall2 (fun a b => id a = id b /\ (~ In (id a) ids -> a = b)) q q'.

(** The public operations that change the queue. *)
Inductive Op : Type :=
| OpAddToQueue (file : FileInfo) (tags category uploader chatId : string)
| OpRemoveFromQueue (uploadId : string)
| OpClearCompleted
| OpClearQueue
| OpRetryFailedUploads
| OpProcessQueue.

Definition run_op (E : Env) (op : Op) : M unit :=
  match op with
  | OpAddToQueue f t c u ch => addToQueue E f t c u ch ;; ret tt
  | OpRemoveFromQueue i => removeFromQueue E i
  | OpClearCompleted => clearCompleted E
  | OpClearQueue => clearQueue E
  | OpRetryFailedUploads => retryFailedUploads E
  | OpProcessQueue => processQueue E
  end.

(** Resume the tasks of the pool in the order [schedule] names them. *)
Fixpoint run_schedule (E : Env) (schedule : list nat) : M unit :=
  match schedule with
  | [] => ret tt
  | i :: rest => resume E i ;; run_schedule E rest
  end.

(** [n] awaited drains, one after the other. *)
Fixpoint drains (E : Env) (n : nat) : M unit :=
  match n with
  | 0 => ret tt
  | S k => processQueue E ;; drains E k
  end.

(** What one [processUpload(upload)] from [w] to [w'] with the new calls
    [new] is bound to satisfy. *)
Definition upload_step (E : Env) (upload : QueuedUpload) (w w' : World)
    (new : list Event) : Prop :=
  same_service w w' /\
  isProcessing w' = isProcessing w /\
  trace w' = trace w ++ new /\
  well_broadcast (listeners w) new /\
  touched_only [id upload] (persisted w) (persisted w') /\
  sent new = match findIndex (fun u => (id u =? id upload)%string) (loaded E w) with
             | Some _ => [upload]
             | None => []
             end.


(** A computation that neither reads nor writes the task pool. *)
Definition ignores_tasks {A} (c : M A) : Prop :=
  forall ts w, c (with_tasks ts w) = (fst (c w), with_tasks ts (snd (c w))).


(* ===================================================================== *)
(** ** Sample worlds *)
(* ===================================================================== *)

Definition sample_file : FileInfo :=
  mkFileInfo "file:///docs/report.pdf" "report.pdf" "application/pdf" 2048.

Definition sample_metadata : Metadata :=
  mkMetadata "work" "documents" "alice" "-100200300".

Definition sample_upload (i : string) (s : Status) (n : nat) : QueuedUpload :=
  mkQueuedUpload i sample_file sample_metadata s n None None
                 "2024-01-01T00:00:00.000Z".

(** Storage works, the device is online, every transfer succeeds. *)
Definition env_online : Env :=
  mkEnv (fun _ => false) (fun _ => false) (fun _ => true)
        (fun _ _ => inr (mkResponse (Some "BQACAgates")))
        (fun _ => "2024-01-02T00:00:00.000Z")
        (fun _ => "upload_1704153600000_k3j9x2m1p")
        "Cannot read property 'file_id' of undefined".

(** As [env_online], but every transfer fails. *)
Definition env_transfer_fails : Env :=
  mkEnv (fun _ => false) (fun _ => false) (fun _ => true)
        (fun _ _ => inl (mkExn (Some "Network Error")))
        (fun _ => "2024-01-02T00:00:00.000Z")
        (fun _ => "upload_1704153600000_k3j9x2m1p")
        "Cannot read property 'file_id' of undefined".

(** As [env_online], but every read of the storage rejects. *)
Definition env_load_fails : Env :=
  mkEnv (fun _ => true) (fun _ => false) (fun _ => true)
        (fun _ _ => inr (mkResponse (Some "BQACAgates")))
        (fun _ => "2024-01-02T00:00:00.000Z")
        (fun _ => "upload_1704153600000_k3j9x2m1p")
        "Cannot read property 'file_id' of undefined".

(** As [env_online], but every write of the storage rejects. *)
Definition env_save_fails : Env :=
  mkEnv (fun _ => false) (fun _ => true) (fun _ => true)
        (fun _ _ => inr (mkResponse (Some "BQACAgates")))
        (fun _ => "2024-01-02T00:00:00.000Z")
        (fun _ => "upload_1704153600000_k3j9x2m1p")
        "Cannot read property 'file_id' of undefined".

(** As [env_online], but the device is offline. *)
Definition env_offline : Env :=
  mkEnv (fun _ => false) (fun _ => false) (fun _ => false)
        (fun _ _ => inr (mkResponse (Some "BQACAgates")))
        (fun _ => "2024-01-02T00:00:00.000Z")
        (fun _ => "upload_1704153600000_k3j9x2m1p")
        "Cannot read property 'file_id' of undefined".

(** A quiet listener and one that throws on every snapshot. *)
Definition listener_quiet (n : nat) : Listener := mkListener n (fun _ => false).
Definition listener_throwing (n : nat) : Listener := mkListener n (fun _ => true).

(** A freshly started service whose storage holds [queue]. *)
Definition world_of (queue : Queue) : World :=
  mkWorld (Some (TextJson queue)) false [] 0 [] [].

Definition world_with_listeners (queue : Queue) (ls : list Listener) : World :=
  mkWorld (Some (TextJson queue)) false ls 0 [] [].

(* ===================================================================== *)
(** ** What a drain does to an item *)
(* ===================================================================== *)

(** The delays waited, in order. *)
Fixpoint delays (tr : list Event) : list nat :=
  match tr with
  | [] => []
  | EvDelay ms :: rest => ms :: delays rest
  | _ :: rest => delays rest
  end.

(** [b] is [a] apart from the bookkeeping fields, and has no fewer
    attempts. *)
Definition keeps (a b : QueuedUpload) : Prop :=
  id b = id a /\ file b = file a /\ metadata b = metadata a /\
  createdAt b = createdAt a /\ attempts a <= attempts b.

(** The call of [sendDocument] for [upload] at clock [n] resolves to a
    response that carries [result.document]. *)
Definition transfer_succeeds (E : Env) (n : nat) (upload : QueuedUpload) : Prop :=
  exists r fid,
    sendDocument_result E n upload = inr r /\ result_document r = Some fid.

(** The assignments the try/catch of [processUpload] can end with. *)
Definition transfer_outcome (upload : QueuedUpload)
    (fin : QueuedUpload -> QueuedUpload) : Prop :=
  fin = mark_completed \/
  exists msg,
    fin = if MAX_RETRIES <=? attempts upload
          then mark_failed msg else mark_pending msg.

(** Whether the call of [sendDocument] for [upload] made at clock [n]
    resolves to a response that carries [result.document]. *)
Definition transfer_ok (E : Env) (n : nat) (upload : QueuedUpload) : bool :=
  match sendDocument_result E n upload with
  | inr r => match result_document r with
             | Some _ => true
             | None => false
             end
  | inl _ => false
  end.

(** [b] is what the [processUpload] that starts at clock [c] makes of the
    queued item [a] when the storage works: the date is read at clock
    [c + 1] and the transfer is the call of [sendDocument] made at clock
    [c + 3]. *)
Definition attempted_at (E : Env) (c : nat) (a b : QueuedUpload) : Prop :=
  id b = id a /\ file b = file a /\ metadata b = metadata a /\
  createdAt b = createdAt a /\
  attempts b = attempts a + 1 /\
  lastAttempt b = Some (date_toISOString E (S c)) /\
  if transfer_ok E (3 + c) a
  then status b = completed /\ error b = None
  else status b = (if MAX_RETRIES <=? attempts a then failed else pending) /\
       exists msg, error b = Some msg.

(** [q'] is what a drain whose loop starts at clock [c] makes of the queue
    [q] when the storage works: an item the filter does not select is kept
    and takes no time; a selected item is attempted at the current clock,
    and the loop goes on six calls later when its transfer succeeded and
    five calls later when it failed. *)
Fixpoint drained (E : Env) (c : nat) (q q' : Queue) : Prop :=
  match q, q' with
  | [], [] => True
  | a :: rest, b :: rest' =>
      if eligible a
      then attempted_at E c a b /\
           drained E (if transfer_ok E (3 + c) a then 6 + c else 5 + c)
                   rest rest'
      else b = a /\ drained E c rest rest'
  | _, _ => False
  end.

(* ===================================================================== *)
(** ** The Telegram client: [handleError] and [uploadWithRetry] *)
(* ===================================================================== *)

(** What [handleError] reads of the value axios rejects with:
    [error.response] with its [status] and [data?.description],
    [error.code] and [error.message]. *)
Record AxiosResponse : Type := mkAxiosResponse {
  http_status : nat;
  data_description : option string
}.

Record AxiosError : Type := mkAxiosError {
  response : option AxiosResponse;
  code : option string;
  error_message : option string
}.

(** [s || fallback] for an optional string: [undefined] and the empty
    string are falsy. *)
Definition js_or (s : option string) (fallback : string) : string :=
  match s with
  | Some m => if (m =? "")%string then fallback else m
  | None => fallback
  end.

(** The decimal text of a number in a template literal. *)
Definition string_of_nat (n : nat) : string :=
  NilEmpty.string_of_uint (Nat.to_uint n).

Definition code_is (error : AxiosError) (c : string) : bool :=
  match code error with
  | Some c' => (c' =? c)%string
  | None => false
  end.

(** [private handleError(error)]: the [Error] it returns, as the value
    [sendDocument] throws. *)
Definition handleError (error : AxiosError) : Exn :=
  match response error with
  | Some r =>
      mkExn (Some (js_or (data_description r)
                         ("HTTP " ++ string_of_nat (http_status r) ++ " error")%string))
  | None =>
      if code_is error "NETWORK_ERROR" || code_is error "ECONNABORTED"
      then mkExn (Some "Network error. Please check your connection.")
      else mkExn (Some (js_or (error_message error) "Unknown error occurred"))
  end.

Definition maxRetries : nat := 3.
Definition retryDelay : nat := 1000.

Section TelegramService.

Variable E : Env.

(** The [for] loop of [uploadWithRetry] from iteration [attempt] on, with
    [remaining] iterations left ([attempt <= maxRetries]) and the current
    value of [lastError].  [request] stands for the arguments [chatId],
    [document], [caption] and [onProgress], which are handed to
    [sendDocument] as they are. *)
Fixpoint uploadWithRetry_loop (remaining attempt : nat)
    (lastError : option Exn) (request : QueuedUpload) : M TelegramResponse :=
  match remaining with
  | 0 => throw (match lastError with
                | Some e => e
                | None => mkExn None
                end)
  | S remaining' =>
      r <- try_catch
             (response <- telegramService_sendDocument E request ;;
              ret (inr response))
             (fun error =>
                (if attempt <? maxRetries
                 then delay (retryDelay * attempt)
                 else ret tt) ;;
                ret (inl error)) ;;
      match r with
      | inr response => ret response
      | inl error =>
          uploadWithRetry_loop remaining' (S attempt) (Some error) request
      end
  end.

(** [async uploadWithRetry(chatId, document, caption, onProgress)] *)
Definition uploadWithRetry (request : QueuedUpload) : M TelegramResponse :=
  uploadWithRetry_loop maxRetries 1 None request.

End TelegramService.

(* ===================================================================== *)
(** ** The database service, as far as the queue calls it *)
(* ===================================================================== *)

(** The statements [databaseService] hands to [executeSql]. *)
Inductive Sql : Type :=
| SqlCreateFilesTable
| SqlCreateGroupsTable
| SqlInsertOrReplaceFile (m : FileMetadata)
| SqlDeleteFile (fileId : string).

(** [private db]: the handle, [None] for [null]; the statements the engine
    has run; a clock that indexes the answers of the engine. *)
Record DbState : Type := mkDbState {
  db : option nat;
  db_clock : nat;
  executed : list Sql
}.

Record DbEnv : Type := mkDbEnv {
  openDatabase_rejects : nat -> bool;
  executeSql_rejects : nat -> bool
}.

Definition D (A : Type) : Type := DbState -> Result A * DbState.

Definition db_ret {A} (a : A) : D A := fun s => (Ok a, s).

Definition db_bind {A B} (c : D A) (k : A -> D B) : D B :=
  fun s => match c s with
           | (Ok a, s') => k a s'
           | (Throw e, s') => (Throw e, s')
           end.

Definition db_throw {A} (e : Exn) : D A := fun s => (Throw e, s).

Definition db_try_catch {A} (body : D A) (handler : Exn -> D A) : D A :=
  fun s => match body s with
           | (Ok a, s') => (Ok a, s')
           | (Throw e, s') => handler e s'
           end.

Definition sqlite_error : Exn := mkExn (Some "SQLite error").

Section DatabaseService.

Variable V : DbEnv.

(** [SQLite.openDatabase({name, location})]: rejects, or resolves to a
    fresh handle. *)
Definition SQLite_openDatabase : D nat :=
  fun s =>
    if openDatabase_rejects V (db_clock s)
    then (Throw sqlite_error, mkDbState (db s) (S (db_clock s)) (executed s))
    else (Ok (db_clock s), mkDbState (db s) (S (db_clock s)) (executed s)).

(** [this.db.executeSql(statement, params)] *)
Definition executeSql (statement : Sql) : D unit :=
  fun s =>
    if executeSql_rejects V (db_clock s)
    then (Throw sqlite_error, mkDbState (db s) (S (db_clock s)) (executed s))
    else (Ok tt, mkDbState (db s) (S (db_clock s)) (executed s ++ [statement])).

(** [private async createTables()] *)
Definition createTables : D unit :=
  fun s =>
    match db s with
    | None => db_ret tt s
    | Some _ =>
        db_try_catch
          (db_bind (executeSql SqlCreateFilesTable)
                   (fun _ => executeSql SqlCreateGroupsTable))
          (fun error => db_ret tt) s
    end.

(** [async openDatabase()] *)
Definition openDatabase : D unit :=
  db_try_catch
    (db_bind SQLite_openDatabase (fun handle =>
     db_bind (fun s => (Ok tt, mkDbState (Some handle) (db_clock s) (executed s)))
             (fun _ => createTables)))
    (fun error => db_ret tt).

(** [async insertFile(metadata)] *)
Definition insertFile (metadata : FileMetadata) : D unit :=
  fun s =>
    match db s with
    | None => db_ret tt s
    | Some _ =>
        db_try_catch (executeSql (SqlInsertOrReplaceFile metadata))
                     (fun error => db_ret tt) s
    end.

(** [async deleteFile(fileId)] *)
Definition deleteFile (fileId : string) : D unit :=
  fun s =>
    match db s with
    | None => db_ret tt s
    | Some _ =>
        db_try_catch (executeSql (SqlDeleteFile fileId))
                     (fun error => db_ret tt) s
    end.

End DatabaseService.

(** The service object before any call, an engine that works, and one
    whose [SQLite.openDatabase] rejects. *)
Definition db_initial : DbState := mkDbState None 0 [].
Definition db_env_ok : DbEnv := mkDbEnv (fun _ => false) (fun _ => false).
Definition db_env_open_fails : DbEnv := mkDbEnv (fun _ => true) (fun _ => false).


(** As [env_online], but a transfer succeeds only when it is made at an
    even clock. *)
Definition env_even_clock_succeeds : Env :=
  mkEnv (fun _ => false) (fun _ => false) (fun _ => true)
        (fun n _ => if Nat.even n then inr (mkResponse (Some "BQACAgates"))
                    else inl (mkExn (Some "Network Error")))
        (fun _ => "2024-01-02T00:00:00.000Z")
        (fun _ => "upload_1704153600000_k3j9x2m1p")
        "Cannot read property 'file_id' of undefined".

(** An environment whose first two transfers fail and whose third
    succeeds. *)
Definition env_third_transfer_succeeds : Env :=
  mkEnv (fun _ => false) (fun _ => false) (fun _ => true)
        (fun n _ => if n <? 2 then inl (mkExn (Some "Network Error"))
                    else inr (mkResponse (Some "BQACAgates")))
        (fun _ => "2024-01-02T00:00:00.000Z")
        (fun _ => "upload_1704153600000_k3j9x2m1p")
        "Cannot read property 'file_id' of undefined".

(* ===================================================================== *)
(** ** Basic facts about the monad and the primitives *)
(* ===================================================================== *)

Lemma Status_eqb_eq (a b : Status) : Status_eqb a b = true <-> a = b.
Proof. destruct a, b; simpl; split; congruence. Qed.

Lemma eligible_iff (u : QueuedUpload) :
  eligible u = true <->
  status u = pending \/ (status u = failed /\ attempts u < MAX_RETRIES).
Proof.
  unfold eligible.
  rewrite orb_true_iff, andb_true_iff, !Status_eqb_eq, Nat.ltb_lt.
  reflexivity.
Qed.

Lemma sent_app (a b : list Event) : sent (a ++ b) = sent a ++ sent b.
Proof.
  induction a as [|e a IH]; simpl; [reflexivity|].
  destruct e; simpl; rewrite ?IH; reflexivity.
Qed.

Lemma sent_broadcast (ls : list Listener) (q : Queue) : sent (broadcast ls q) = [].
Proof. induction ls; simpl; auto. Qed.

Section Primitives.

Variable E : Env.

Lemma getQueue_run (w : World) :
  getQueue E w = (Ok (loaded E w), after_get w).
Proof.
  unfold getQueue, try_catch, AsyncStorage_getItem, loaded, persisted,
    after_get, bind, tick, emit, modify, gets, throw, ret.
  destruct w as [st p ls c tr ts]; simpl.
  destruct (getItem_rejects E c); simpl; [reflexivity|].
  destruct st as [[| q |]|]; reflexivity.
Qed.

Lemma saveQueue_run (q : Queue) (w : World) :
  saveQueue E q w = (Ok tt, after_save E q w).
Proof.
  unfold saveQueue, try_catch, AsyncStorage_setItem, after_save,
    bind, tick, emit, modify, throw, ret.
  destruct w as [st p ls c tr ts]; simpl.
  destruct (setItem_rejects E c); reflexivity.
Qed.

Lemma forEach_listeners_run (q : Queue) (ls : list Listener) (w : World) :
  forEach (fun listener =>
             try_catch (call_listener q listener) (fun _ => ret tt)) ls w
  = (Ok tt, with_trace (trace w ++ broadcast ls q) w).
Proof.
  revert w. induction ls as [|l ls IH]; intros w.
  - simpl. unfold ret, with_trace. rewrite app_nil_r. destruct w; reflexivity.
  - simpl. unfold bind at 1. unfold try_catch, call_listener, bind, emit,
      modify, throw, ret.
    destruct (lthrows l q); rewrite IH; destruct w; unfold with_trace; simpl;
      rewrite <- app_assoc; reflexivity.
Qed.

Lemma notifyListeners_run (q : Queue) (w : World) :
  notifyListeners q w = (Ok tt, after_notify q w).
Proof.
  unfold notifyListeners, bind, gets. apply forEach_listeners_run.
Qed.

End Primitives.

(* ===================================================================== *)
(** ** Lists: [findIndex], [update_at], [touched_only] *)
(* ===================================================================== *)

Lemma findIndex_Some {A} (p : A -> bool) (l : list A) (i : nat) :
  findIndex p l = Some i ->
  exists x, nth_error l i = Some x /\ p x = true.
Proof.
  revert i. induction l as [|a l IH]; intros i; simpl; [discriminate|].
  destruct (p a) eqn:Hp.
  - intros [= <-]. exists a. split; [reflexivity | assumption].
  - destruct (findIndex p l) as [j|]; [|discriminate].
    intros [= <-]. simpl. apply IH. reflexivity.
Qed.

Lemma findIndex_None {A} (p : A -> bool) (l : list A) :
  findIndex p l = None <-> forall x, In x l -> p x = false.
Proof.
  induction l as [|a l IH]; simpl.
  - split; [intros _ x [] | reflexivity].
  - destruct (p a) eqn:Hp.
    + split; [discriminate|]. intros H. rewrite (H a) in Hp; [discriminate|auto].
    + destruct (findIndex p l) as [j|].
      * split; [discriminate|]. intros H. exfalso.
        assert (Hn : Some j = None) by (apply IH; intros x Hx; apply H; auto).
        discriminate.
      * split; [|reflexivity]. intros _ x [<-|Hx]; [assumption|].
        apply (proj1 IH); [reflexivity | assumption].
Qed.

Lemma findIndex_id_In (i : string) (q : Queue) :
  In i (map id q) ->
  exists n, findIndex (fun u => (id u =? i)%string) q = Some n.
Proof.
  intros Hin.
  destruct (findIndex (fun u => (id u =? i)%string) q) as [n|] eqn:Hf;
    [exists n; reflexivity|].
  exfalso. apply in_map_iff in Hin. destruct Hin as [u [Hid Hu]].
  pose proof (proj1 (findIndex_None _ _) Hf u Hu) as Hne. simpl in Hne.
  rewrite Hid, String.eqb_refl in Hne. discriminate.
Qed.

Lemma findIndex_id_not_In (i : string) (q : Queue) :
  ~ In i (map id q) ->
  findIndex (fun u => (id u =? i)%string) q = None.
Proof.
  intros Hnin. apply findIndex_None. intros x Hx.
  apply String.eqb_neq. intros Heq. apply Hnin.
  apply in_map_iff. exists x. auto.
Qed.

Lemma touched_only_refl (ids : list string) (q : Queue) : touched_only ids q q.
Proof. induction q; constructor; auto. Qed.

Lemma touched_only_trans (ids : list string) (q1 q2 q3 : Queue) :
  touched_only ids q1 q2 -> touched_only ids q2 q3 -> touched_only ids q1 q3.
Proof.
  intros H12. revert q3. induction H12 as [|a b q1 q2 [Hid Hab] _ IH];
    intros q3 H23; inversion H23 as [|b' c q2' q3' [Hid' Hbc] Hrest]; subst.
  - constructor.
  - constructor; [|apply IH; assumption]. split; [congruence|].
    intros Hn. rewrite (Hab Hn). apply Hbc. rewrite <- Hid. assumption.
Qed.

Lemma touched_only_incl (ids ids' : list string) (q q' : Queue) :
  incl ids ids' -> touched_only ids q q' -> touched_only ids' q q'.
Proof.
  intros Hincl H. induction H as [|a b q q' [Hid Hab] _ IH]; constructor; auto.
  split; [assumption|]. intros Hn. apply Hab. intros Hin. apply Hn, Hincl, Hin.
Qed.

Lemma touched_only_ids (ids : list string) (q q' : Queue) :
  touched_only ids q q' -> map id q' = map id q.
Proof.
  intros H. induction H as [|a b q q' [Hid _] _ IH]; simpl; congruence.
Qed.

Lemma touched_only_In (ids : list string) (q q' : Queue) (y : QueuedUpload) :
  touched_only ids q q' -> In y q -> ~ In (id y) ids -> In y q'.
Proof.
  intros H. induction H as [|a b q q' [Hid Hab] _ IH]; simpl; [auto|].
  intros [<-|Hy] Hn; [left; symmetry; auto | right; auto].
Qed.

Lemma touched_only_update_at (t : string) (f : QueuedUpload -> QueuedUpload)
    (q : Queue) (i : nat) :
  (forall u, id (f u) = id u) ->
  findIndex (fun u => (id u =? t)%string) q = Some i ->
  touched_only [t] q (update_at i f q).
Proof.
  intros Hf. revert i. induction q as [|a q IH]; intros i; simpl; [discriminate|].
  destruct (id a =? t)%string eqn:Ha.
  - intros [= <-]. constructor; [|apply touched_only_refl].
    split; [symmetry; apply Hf|]. intros Hn. exfalso. apply Hn. left.
    symmetry. apply String.eqb_eq. assumption.
  - destruct (findIndex _ q) as [j|] eqn:Hj; [|discriminate].
    intros [= <-]. constructor; [auto | apply IH; reflexivity].
Qed.

Lemma update_at_update_at {A} (i : nat) (f g : A -> A) (l : list A) :
  update_at i g (update_at i f l) = update_at i (fun x => g (f x)) l.
Proof.
  revert i. induction l as [|a l IH]; intros [|i]; simpl; congruence.
Qed.

(* ===================================================================== *)
(** ** Broadcast discipline of traces *)
(* ===================================================================== *)

Lemma broadcast_length (ls : list Listener) (q : Queue) :
  length (broadcast ls q) = length ls.
Proof. apply length_map. Qed.

Lemma well_broadcast_broadcast (ls ls' : list Listener) (q : Queue) :
  well_broadcast ls (broadcast ls' q).
Proof. induction ls'; simpl; auto. Qed.

Lemma well_broadcast_app (ls : list Listener) (a b : list Event) :
  well_broadcast ls a -> well_broadcast ls b -> well_broadcast ls (a ++ b).
Proof.
  intros Ha Hb. induction a as [|e a IH]; simpl; [assumption|].
  destruct e; simpl in *; auto.
  destruct Ha as [Hfirst Ha]. split; [|auto].
  rewrite firstn_app.
  assert (Hlen : length ls <= length a).
  { pose proof (f_equal (@length _) Hfirst) as Hl.
    rewrite length_firstn, broadcast_length in Hl. lia. }
  replace (length ls - length a) with 0 by lia.
  simpl. rewrite app_nil_r. assumption.
Qed.

Lemma well_broadcast_save (ls : list Listener) (q : Queue) (b : bool) :
  well_broadcast ls (EvSetItem q b :: broadcast ls q).
Proof.
  simpl. split; [|apply well_broadcast_broadcast].
  rewrite <- (broadcast_length ls q). apply firstn_all.
Qed.

(* ===================================================================== *)
(** ** One upload *)
(* ===================================================================== *)

Section Upload.

Variable E : Env.

Lemma attempt_transfer_run (upload : QueuedUpload) (i : nat) (q : Queue)
    (w : World) :
  exists f new c',
    attempt_transfer E upload i q w
    = (Ok (update_at i f q),
       mkWorld (storage w) (isProcessing w) (listeners w) c'
               (trace w ++ EvSendDocument upload :: new) (tasks w)) /\
    (forall u, id (f u) = id u) /\
    (new = [] \/ exists m, new = [EvInsertFile m]).
Proof.
  unfold attempt_transfer, try_catch, telegramService_sendDocument,
    response_file_id, Date_toISOString, databaseService_insertFile,
    bind, tick, emit, modify, throw, ret.
  generalize (MAX_RETRIES <=? attempts upload)%nat as over; intros over.
  destruct w as [st p ls c tr ts]; simpl.
  destruct (sendDocument_result E c upload) as [e|r]; simpl.
  - destruct over;
      eexists _, [], _; (split; [reflexivity|]); split; auto.
  - destruct (result_document r) as [fid|]; simpl.
    + eexists mark_completed, [_], _. rewrite <- app_assoc. simpl.
      split; [reflexivity|]. split; [reflexivity|]. right. eexists. reflexivity.
    + destruct over;
        eexists _, [], _; (split; [reflexivity|]); split; auto.
Qed.

Lemma loaded_found_persisted (w : World) (t : string) (i : nat) :
  findIndex (fun u => (id u =? t)%string) (loaded E w) = Some i ->
  loaded E w = persisted w.
Proof.
  unfold loaded. destruct (getItem_rejects E (clock w)); [discriminate|reflexivity].
Qed.

Lemma persisted_after_save (q : Queue) (w : World) :
  persisted (after_save E q w) = persisted w \/
  persisted (after_save E q w) = q.
Proof.
  unfold after_save, persisted; simpl.
  destruct (setItem_rejects E (clock w)); auto.
Qed.

Lemma processUpload_spec (upload : QueuedUpload) (w : World) :
  exists new w',
    processUpload E upload w = (Ok tt, w') /\
    upload_step E upload w w' new.
Proof.
  destruct (processUpload E upload w) as [r w'] eqn:Hrun.
  unfold processUpload in Hrun. unfold bind at 1 in Hrun.
  rewrite getQueue_run in Hrun.
  destruct (findIndex _ (loaded E w)) as [i|] eqn:Hfind.
  - pose proof (loaded_found_persisted _ _ _ Hfind) as Hload.
    rewrite Hload in *.
    unfold bind at 1, Date_toISOString at 1, bind at 1, tick, ret in Hrun.
    simpl in Hrun.
    set (now := date_toISOString E (S (clock w))) in *.
    set (q1 := update_at i (mark_uploading now) (persisted w)) in *.
    set (w1 := with_clock _ _) in *.
    unfold bind at 1 in Hrun. rewrite saveQueue_run in Hrun.
    unfold bind at 1 in Hrun. rewrite notifyListeners_run in Hrun.
    unfold bind at 1 in Hrun.
    destruct (attempt_transfer_run upload i q1 (after_notify q1 (after_save E q1 w1)))
      as (f & new & c' & Hatt & Hf & Hnew).
    rewrite Hatt in Hrun. set (w2 := mkWorld _ _ _ c' _ _) in *.
    unfold bind at 1 in Hrun.
    rewrite saveQueue_run, notifyListeners_run in Hrun.
    set (q2 := update_at i f q1) in *.
    injection Hrun as <- <-.
    exists ([EvGetItem] ++ (EvSetItem q1 (negb (setItem_rejects E (clock w1)))
                :: broadcast (listeners w) q1)
            ++ (EvSendDocument upload :: new)
            ++ (EvSetItem q2 (negb (setItem_rejects E c'))
                :: broadcast (listeners w) q2)).
    eexists. split; [reflexivity|].
    assert (Hq1 : touched_only [id upload] (persisted w) q1).
    { apply touched_only_update_at; [reflexivity | assumption]. }
    assert (Hq2 : touched_only [id upload] (persisted w) q2).
    { unfold q2, q1. rewrite update_at_update_at.
      apply touched_only_update_at; [|assumption].
      intros u. rewrite Hf. reflexivity. }
    unfold upload_step, same_service.
    split; [split; reflexivity|].
    split; [reflexivity|].
    split; [simpl; rewrite <- !app_assoc; reflexivity|].
    split.
    { apply (well_broadcast_app _ [EvGetItem]); [exact I|].
      apply (well_broadcast_app _ (_ :: _)); [apply well_broadcast_save|].
      apply (well_broadcast_app _ (_ :: _)); [|apply well_broadcast_save].
      destruct Hnew as [-> | [m ->]]; exact I. }
    split.
    { unfold persisted at 2. simpl.
      destruct (setItem_rejects E c'); simpl; [|assumption].
      destruct (setItem_rejects E (S (S (clock w)))); simpl; [|assumption].
      apply touched_only_refl. }
    rewrite Hload, Hfind.
    repeat (rewrite ?sent_app, ?sent_broadcast; simpl).
    destruct Hnew as [-> | [m ->]]; reflexivity.
  - injection Hrun as <- <-.
    exists [EvGetItem]. eexists. split; [reflexivity|].
    unfold upload_step, same_service. rewrite Hfind. simpl.
    repeat split; auto. apply touched_only_refl.
Qed.

End Upload.

(* ===================================================================== *)
(** ** The drain loop *)
(* ===================================================================== *)

Section Drain.

Variable E : Env.

Lemma drain_item_spec (upload : QueuedUpload) (w : World) :
  exists new w',
    drain_item E upload w = (Ok tt, w') /\
    upload_step E upload w w' new.
Proof.
  destruct (processUpload_spec E upload w) as (new & w1 & Hrun & Hstep).
  exists (new ++ [EvDelay 1000]), (with_trace (trace w1 ++ [EvDelay 1000]) w1).
  split.
  - unfold drain_item, try_catch, bind, delay, emit, modify.
    rewrite Hrun. reflexivity.
  - destruct Hstep as ([Hls Hts] & Hp & Htr & Hwb & Hto & Hsent).
    unfold upload_step, same_service. simpl.
    repeat split; try assumption.
    + rewrite Htr, app_assoc. reflexivity.
    + apply well_broadcast_app; [assumption | exact I].
    + rewrite sent_app, Hsent. simpl. apply app_nil_r.
Qed.

Lemma loaded_no_reject (w : World) :
  (forall n, getItem_rejects E n = false) -> loaded E w = persisted w.
Proof. intros H. unfold loaded. rewrite H. reflexivity. Qed.

Lemma drain_loop_spec (l : list QueuedUpload) (w : World) :
  exists new w',
    forEach (drain_item E) l w = (Ok tt, w') /\
    same_service w w' /\
    isProcessing w' = isProcessing w /\
    trace w' = trace w ++ new /\
    well_broadcast (listeners w) new /\
    touched_only (map id l) (persisted w) (persisted w') /\
    (forall u, In u (sent new) -> In u l) /\
    ((forall n, getItem_rejects E n = false) ->
     incl (map id l) (map id (persisted w)) ->
     sent new = l).
Proof.
  revert w. induction l as [|u l IH]; intros w.
  - exists [], w. simpl. rewrite app_nil_r.
    repeat split; auto. apply touched_only_refl.
  - destruct (drain_item_spec u w)
      as (new1 & w1 & Hrun1 & [Hls1 Hts1] & Hp1 & Htr1 & Hwb1 & Hto1 & Hsent1).
    destruct (IH w1)
      as (new2 & w2 & Hrun2 & [Hls2 Hts2] & Hp2 & Htr2 & Hwb2 & Hto2 & Hin2 & Hall2).
    exists (new1 ++ new2), w2.
    split. { simpl. unfold bind. rewrite Hrun1. exact Hrun2. }
    split. { split; congruence. }
    split. { congruence. }
    split. { rewrite Htr2, Htr1, app_assoc. reflexivity. }
    split. { apply well_broadcast_app; [assumption|]. rewrite <- Hls1. assumption. }
    split.
    { apply touched_only_trans with (persisted w1).
      - apply touched_only_incl with [id u]; [|assumption].
        intros x [<-|[]]. simpl. auto.
      - apply touched_only_incl with (map id l); [|assumption].
        intros x Hx. simpl. auto. }
    split.
    { intros x. rewrite sent_app, in_app_iff, Hsent1. intros [Hx|Hx].
      - destruct (findIndex _ _); [destruct Hx as [<-|[]]; left; reflexivity | destruct Hx].
      - right. auto. }
    intros Hok Hincl. rewrite sent_app, Hsent1.
    rewrite (loaded_no_reject _ Hok).
    destruct (findIndex_id_In (id u) (persisted w)) as [n Hn].
    { apply Hincl. simpl. auto. }
    rewrite Hn. simpl. f_equal. apply Hall2; [assumption|].
    rewrite (touched_only_ids _ _ _ Hto1).
    intros x Hx. apply Hincl. simpl. auto.
Qed.

(** [processQueue] when it gets past its two guards. *)
Lemma processQueue_running (w : World) :
  isProcessing w = false ->
  net_isConnected E (clock w) = true ->
  exists new w1,
    forEach (drain_item E) (filter eligible (loaded E (with_isProcessing true
        (mkWorld (storage w) false (listeners w) (S (clock w))
           ((trace w ++ [EvProcessQueue]) ++ [EvNetInfoFetch]) (tasks w)))))
      (after_get (with_isProcessing true
        (mkWorld (storage w) false (listeners w) (S (clock w))
           ((trace w ++ [EvProcessQueue]) ++ [EvNetInfoFetch]) (tasks w))))
    = (Ok tt, w1) /\
    processQueue E w = (Ok tt, with_isProcessing false w1) /\
    trace w1 = trace w ++ [EvProcessQueue; EvNetInfoFetch; EvGetItem] ++ new.
Proof.
  intros Hp Hnet.
  set (w0 := with_isProcessing true _).
  destruct (drain_loop_spec (filter eligible (loaded E w0)) (after_get w0))
    as (new & w1 & Hrun & _ & _ & Htr & _).
  exists new, w1. split; [exact Hrun|]. split.
  - unfold processQueue, bind, emit, modify, gets, NetInfo_fetch, tick, ret.
    destruct w as [st p ls c tr ts]; simpl in *. subst p.
    unfold with_trace, with_clock; simpl. rewrite Hnet. simpl.
    rewrite getQueue_run. fold w0. rewrite Hrun. reflexivity.
  - rewrite Htr. simpl. rewrite <- !app_assoc. reflexivity.
Qed.

(** [processQueue] never throws, keeps the listeners and the task pool,
    only appends to the trace, and keeps the broadcast discipline. *)
Lemma processQueue_spec (w : World) :
  exists new w',
    processQueue E w = (Ok tt, w') /\
    same_service w w' /\
    trace w' = trace w ++ new /\
    well_broadcast (listeners w) new /\
    touched_only (map id (filter eligible (persisted w)))
                 (persisted w) (persisted w') /\
    (forall u, In u (sent new) -> In u (filter eligible (persisted w))).
Proof.
  destruct (isProcessing w) eqn:Hp.
  - exists [EvProcessQueue], (with_trace (trace w ++ [EvProcessQueue]) w).
    split.
    { unfold processQueue, bind, emit, modify, gets, ret. simpl. rewrite Hp.
      reflexivity. }
    unfold same_service. simpl.
    repeat split; auto; [apply touched_only_refl | intros u []].
  - destruct (net_isConnected E (clock w)) eqn:Hnet.
    + set (w0 := with_isProcessing true
        (mkWorld (storage w) false (listeners w) (S (clock w))
           ((trace w ++ [EvProcessQueue]) ++ [EvNetInfoFetch]) (tasks w))).
      destruct (drain_loop_spec (filter eligible (loaded E w0)) (after_get w0))
        as (new & w1 & Hrun & [Hls Hts] & _ & Htr & Hwb & Hto & Hin & _).
      destruct (processQueue_running w Hp Hnet) as (new' & w1' & Hrun' & Hpq & _).
      fold w0 in Hrun'. rewrite Hrun in Hrun'. injection Hrun' as <-.
      exists ([EvProcessQueue; EvNetInfoFetch; EvGetItem] ++ new),
             (with_isProcessing false w1).
      split; [exact Hpq|].
      assert (Hl : loaded E w0 = persisted w \/ loaded E w0 = []).
      { unfold loaded, w0, persisted. simpl.
        destruct (getItem_rejects E (S (clock w))); auto. }
      unfold same_service. simpl.
      split; [split; [rewrite Hls | rewrite Hts]; reflexivity|].
      split. { rewrite Htr. simpl. rewrite <- !app_assoc. reflexivity. }
      split. { exact Hwb. }
      change (persisted (after_get w0)) with (persisted w) in Hto.
      destruct Hl as [Hl|Hl]; rewrite Hl in *.
      * split; [assumption|]. intros u Hu. apply Hin. exact Hu.
      * simpl in Hto, Hin. split.
        { apply touched_only_incl with []; [intros x []|assumption]. }
        intros u Hu. destruct (Hin u Hu).
    + exists [EvProcessQueue; EvNetInfoFetch],
        (mkWorld (storage w) (isProcessing w) (listeners w) (S (clock w))
           (trace w ++ [EvProcessQueue; EvNetInfoFetch]) (tasks w)).
      split.
      { unfold processQueue, bind, emit, modify, gets, NetInfo_fetch, tick, ret.
        destruct w as [st p ls c tr ts]; simpl in *. subst p.
        unfold with_trace, with_clock; simpl. rewrite Hnet.
        simpl. rewrite <- app_assoc. reflexivity. }
      unfold same_service. simpl.
      repeat split; auto; [apply touched_only_refl | intros u []].
Qed.

End Drain.

(* ===================================================================== *)
(** ** Loading, saving and enqueueing *)
(* ===================================================================== *)

(** C10.  [getQueue] never throws: in every world it returns a queue, and
    it returns the empty queue when the read of the storage rejects, when
    nothing is stored under the key, when the stored text is empty, and
    when the stored text does not parse. *)
Theorem getQueue_never_throws (E : Env) (w : World) :
  (exists q, outcome (getQueue E) w = Ok q) /\
  (getItem_rejects E (clock w) = true \/ storage w = None \/
   storage w = Some TextEmpty \/ storage w = Some TextGarbage ->
   outcome (getQueue E) w = Ok []).
Proof.
  unfold outcome. rewrite getQueue_run. simpl. split.
  - eexists. reflexivity.
  - unfold loaded, persisted.
    intros [H | [H | [H | H]]]; rewrite H; try reflexivity;
      destruct (getItem_rejects E (clock w)); reflexivity.
Qed.

Lemma getQueue_never_throws_witness :
  (exists q, outcome (getQueue env_load_fails)
                     (world_of [sample_upload "X" pending 0]) = Ok q) /\
  outcome (getQueue env_load_fails) (world_of [sample_upload "X" pending 0])
  = Ok [].
Proof.
  pose proof (getQueue_never_throws env_load_fails
                (world_of [sample_upload "X" pending 0])) as [H1 H2].
  split; [exact H1|]. apply H2. left. reflexivity.
Defined.

(** C9.  When the identifier of [upload] is not in the persisted queue,
    [processUpload(upload)] only reads the storage: it returns normally,
    the stored text and the service fields are unchanged, and the one new
    call in the trace is the read, so there is no write, no transfer and no
    listener call. *)
Theorem processUpload_missing_is_noop (E : Env) (upload : QueuedUpload)
    (w : World) :
  ~ In (id upload) (map id (persisted w)) ->
  outcome (processUpload E upload) w = Ok tt /\
  storage (exec (processUpload E upload) w) = storage w /\
  isProcessing (exec (processUpload E upload) w) = isProcessing w /\
  listeners (exec (processUpload E upload) w) = listeners w /\
  tasks (exec (processUpload E upload) w) = tasks w /\
  trace (exec (processUpload E upload) w) = trace w ++ [EvGetItem].
Proof.
  intros Hnin.
  assert (Hrun : processUpload E upload w = (Ok tt, after_get w)).
  { unfold processUpload. unfold bind at 1. rewrite getQueue_run.
    assert (Hnone : findIndex (fun u => (id u =? id upload)%string) (loaded E w)
                    = None).
    { unfold loaded. destruct (getItem_rejects E (clock w)); [reflexivity|].
      apply findIndex_id_not_In. assumption. }
    rewrite Hnone. reflexivity. }
  unfold outcome, exec. rewrite Hrun. simpl. repeat split; reflexivity.
Qed.

Lemma processUpload_missing_is_noop_witness :
  outcome (processUpload env_online (sample_upload "gone" pending 0))
          (world_with_listeners [sample_upload "X" pending 0] [listener_quiet 1])
  = Ok tt /\
  trace (exec (processUpload env_online (sample_upload "gone" pending 0))
          (world_with_listeners [sample_upload "X" pending 0] [listener_quiet 1]))
  = [EvGetItem].
Proof.
  assert (Hnin : ~ In (id (sample_upload "gone" pending 0))
                   (map id (persisted (world_with_listeners
                      [sample_upload "X" pending 0] [listener_quiet 1])))).
  { simpl. intros [H|[]]. discriminate H. }
  destruct (processUpload_missing_is_noop env_online _ _ Hnin)
    as (H1 & _ & _ & _ & _ & H6).
  split; [exact H1 | exact H6].
Defined.

Lemma addToQueue_run (E : Env) (w : World) (f : FileInfo)
    (t c u ch : string) :
  let upload :=
    mkQueuedUpload (generateId_result E (clock w))
      (mkFileInfo (uri f) (name f) (type f) (size f))
      (mkMetadata t c u ch) pending 0 None None
      (date_toISOString E (S (clock w))) in
  let w1 := with_clock (S (S (clock w))) w in
  let q := loaded E w1 ++ [upload] in
  let w2 := after_notify q (after_save E q (after_get w1)) in
  let w3 := with_trace (trace w2 ++ [EvNetInfoFetch])
                       (with_clock (S (clock w2)) w2) in
  addToQueue E f t c u ch w =
  (Ok (id upload),
   if net_isConnected E (clock w2) then
     if isProcessing w then with_trace (trace w3 ++ [EvProcessQueue]) w3
     else with_tasks (tasks w ++ [AwaitNetInfo])
            (with_trace (trace w3 ++ [EvProcessQueue]) w3)
   else w3).
Proof.
  intros upload w1 q w2 w3.
  unfold addToQueue. unfold bind at 1, generateId at 1, bind at 1, tick, ret.
  unfold bind at 1, Date_toISOString at 1, bind at 1, tick, ret.
  unfold bind at 1. simpl clock. fold w1.
  change (with_clock (S (S (clock w))) (with_clock (S (clock w)) w)) with w1.
  rewrite getQueue_run.
  unfold bind at 1. rewrite saveQueue_run.
  unfold bind at 1. rewrite notifyListeners_run. fold upload q w2.
  unfold bind at 1, NetInfo_fetch at 1, bind, tick, emit, modify, ret.
  simpl.
  destruct (net_isConnected E (S (S (S (S (clock w)))))); [|reflexivity].
  unfold processQueue_call, bind, emit, modify, gets, ret. simpl.
  destruct (isProcessing w); reflexivity.
Qed.




(* ===================================================================== *)
(** ** Structural operations and the notification bus *)
(* ===================================================================== *)

Section Operations.

Variable E : Env.

Lemma save_notify_run (q : Queue) (w : World) :
  (saveQueue E q ;; notifyListeners q) w
  = (Ok tt, after_notify q (after_save E q w)).
Proof.
  unfold bind. rewrite saveQueue_run. apply notifyListeners_run.
Qed.

Lemma removeFromQueue_run (i : string) (w : World) :
  removeFromQueue E i w
  = (Ok tt,
     after_notify (filter (fun u => negb (id u =? i)%string) (loaded E w))
       (after_save E (filter (fun u => negb (id u =? i)%string) (loaded E w))
          (after_get w))).
Proof.
  unfold removeFromQueue. unfold bind at 1. rewrite getQueue_run.
  apply save_notify_run.
Qed.

Lemma clearCompleted_run (w : World) :
  clearCompleted E w
  = (Ok tt,
     after_notify
       (filter (fun u => negb (Status_eqb (status u) completed)) (loaded E w))
       (after_save E
          (filter (fun u => negb (Status_eqb (status u) completed)) (loaded E w))
          (after_get w))).
Proof.
  unfold clearCompleted. unfold bind at 1. rewrite getQueue_run.
  apply save_notify_run.
Qed.

Lemma clearQueue_run (w : World) :
  clearQueue E w = (Ok tt, after_notify [] (after_save E [] w)).
Proof. apply save_notify_run. Qed.

Lemma processQueue_call_run (w : World) :
  processQueue_call w
  = (Ok tt,
     if isProcessing w then with_trace (trace w ++ [EvProcessQueue]) w
     else with_tasks (tasks w ++ [AwaitNetInfo])
            (with_trace (trace w ++ [EvProcessQueue]) w)).
Proof.
  unfold processQueue_call, bind, emit, modify, gets, ret. simpl.
  destruct (isProcessing w); reflexivity.
Qed.

Lemma retryFailedUploads_run (w : World) :
  retryFailedUploads E w
  = (Ok tt,
     let q := map rearm (loaded E w) in
     let w1 := after_notify q (after_save E q (after_get w)) in
     if isProcessing w then with_trace (trace w1 ++ [EvProcessQueue]) w1
     else with_tasks (tasks w ++ [AwaitNetInfo])
            (with_trace (trace w1 ++ [EvProcessQueue]) w1)).
Proof.
  unfold retryFailedUploads. unfold bind at 1. rewrite getQueue_run.
  unfold bind at 1. rewrite saveQueue_run.
  unfold bind at 1. rewrite notifyListeners_run.
  rewrite processQueue_call_run. reflexivity.
Qed.

Lemma well_broadcast_save_after (ls : list Listener) (q : Queue) (b : bool)
    (pre post : list Event) :
  well_broadcast ls pre -> well_broadcast ls post ->
  well_broadcast ls (pre ++ (EvSetItem q b :: broadcast ls q) ++ post).
Proof.
  intros Hpre Hpost. apply well_broadcast_app; [assumption|].
  apply well_broadcast_app; [apply well_broadcast_save | assumption].
Qed.

End Operations.

(** C7.  [subscribe] puts the listener after those already subscribed.  A
    call [notifyListeners(queue)] calls every subscribed listener once with
    [queue], in subscription order, whichever of them throw, and itself
    returns normally.  Every operation that changes the queue returns
    normally, leaves the subscriptions as they are, and in the calls it makes
    every write of the queue is followed at once by that broadcast of the
    queue written; each operation other than a drain makes such a write. *)
Theorem mutations_broadcast_to_all_listeners (E : Env) (w : World) :
  (forall l, listeners (exec (subscribe l) w) = listeners w ++ [l]) /\
  (forall q,
     notifyListeners q w
     = (Ok tt,
        with_trace (trace w ++ map (fun l => EvListener (lid l) q) (listeners w))
                   w)) /\
  (forall op, exists new,
     outcome (run_op E op) w = Ok tt /\
     listeners (exec (run_op E op) w) = listeners w /\
     trace (exec (run_op E op) w) = trace w ++ new /\
     well_broadcast (listeners w) new /\
     (op <> OpProcessQueue -> exists q stored, In (EvSetItem q stored) new)).
Proof.
  split; [reflexivity|].
  split; [intros q; apply notifyListeners_run|].
  intros [f t c u ch | i | | | | ]; unfold outcome, exec, run_op.
  - unfold bind. rewrite addToQueue_run. cbv zeta.
    set (q := loaded E _ ++ [_]).
    set (b := negb (setItem_rejects E (S (S (S (clock w)))))).
    exists ([EvGetItem] ++ (EvSetItem q b :: broadcast (listeners w) q)
            ++ EvNetInfoFetch ::
               (if net_isConnected E (S (S (S (S (clock w)))))
                then [EvProcessQueue] else [])).
    split; [reflexivity|].
    split.
    { simpl. destruct (net_isConnected E _); [destruct (isProcessing w)|];
        reflexivity. }
    split.
    { simpl. destruct (net_isConnected E _); [destruct (isProcessing w)|];
        simpl; rewrite <- ?app_assoc; reflexivity. }
    split.
    { apply (well_broadcast_save_after _ _ _ [EvGetItem]); [exact I|].
      destruct (net_isConnected E _); exact I. }
    intros _. exists q, b. simpl. auto.
  - rewrite removeFromQueue_run.
    set (q := filter _ _).
    exists ([EvGetItem] ++ (EvSetItem q (negb (setItem_rejects E (S (clock w))))
                            :: broadcast (listeners w) q) ++ []).
    split; [reflexivity|]. split; [reflexivity|].
    split; [simpl; rewrite app_nil_r, <- !app_assoc; reflexivity|].
    split; [apply (well_broadcast_save_after _ _ _ [EvGetItem]); exact I|].
    intros _. eexists _, _. simpl. auto.
  - rewrite clearCompleted_run.
    set (q := filter _ _).
    exists ([EvGetItem] ++ (EvSetItem q (negb (setItem_rejects E (S (clock w))))
                            :: broadcast (listeners w) q) ++ []).
    split; [reflexivity|]. split; [reflexivity|].
    split; [simpl; rewrite app_nil_r, <- !app_assoc; reflexivity|].
    split; [apply (well_broadcast_save_after _ _ _ [EvGetItem]); exact I|].
    intros _. eexists _, _. simpl. auto.
  - rewrite clearQueue_run.
    exists ([] ++ (EvSetItem [] (negb (setItem_rejects E (clock w)))
                   :: broadcast (listeners w) []) ++ []).
    split; [reflexivity|]. split; [reflexivity|].
    split; [simpl; rewrite app_nil_r, <- !app_assoc; reflexivity|].
    split; [apply (well_broadcast_save_after _ _ _ []); exact I|].
    intros _. eexists _, _. simpl. auto.
  - rewrite retryFailedUploads_run. cbv zeta.
    set (q := map rearm _).
    exists ([EvGetItem] ++ (EvSetItem q (negb (setItem_rejects E (S (clock w))))
                            :: broadcast (listeners w) q) ++ [EvProcessQueue]).
    split; [reflexivity|].
    split; [destruct (isProcessing w); reflexivity|].
    split; [destruct (isProcessing w); simpl; rewrite <- !app_assoc; reflexivity|].
    split; [apply (well_broadcast_save_after _ _ _ [EvGetItem]); exact I|].
    intros _. eexists _, _. simpl. auto.
  - destruct (processQueue_spec E w) as (new & w' & Hrun & [Hls _] & Htr & Hwb & _).
    exists new. rewrite Hrun. simpl.
    split; [reflexivity|]. split; [assumption|]. split; [assumption|].
    split; [assumption|]. intros H. exfalso. apply H. reflexivity.
Qed.

Lemma mutations_broadcast_to_all_listeners_witness :
  exists new,
    trace (exec (run_op env_online (OpRemoveFromQueue "X"))
             (world_with_listeners [sample_upload "X" pending 0]
                [listener_throwing 1; listener_quiet 2]))
    = [] ++ new /\
    well_broadcast [listener_throwing 1; listener_quiet 2] new /\
    exists q stored, In (EvSetItem q stored) new.
Proof.
  destruct (mutations_broadcast_to_all_listeners env_online
              (world_with_listeners [sample_upload "X" pending 0]
                 [listener_throwing 1; listener_quiet 2]))
    as (_ & _ & Hops).
  destruct (Hops (OpRemoveFromQueue "X")) as (new & _ & _ & Htr & Hwb & Hset).
  exists new. split; [exact Htr|]. split; [exact Hwb|].
  apply Hset. discriminate.
Defined.

(* ===================================================================== *)
(** ** Persistence failures *)
(* ===================================================================== *)

(** C5, as stated, fails: with a storage whose reads reject, [addToQueue]
    on a queue that holds one item resolves to the new identifier instead
    of rejecting, and the queue persisted afterwards is not the one that was
    persisted before. *)
Lemma persistence_failure_not_surfaced :
  let w := world_of [sample_upload "X" pending 0] in
  let r := addToQueue env_load_fails sample_file "work" "documents" "alice"
                      "-100200300" w in
  getItem_rejects env_load_fails (2 + clock w) = true /\
  fst r = Ok "upload_1704153600000_k3j9x2m1p" /\
  ~ ((exists e, fst r = Throw e) /\ persisted (snd r) = persisted w).
Proof.
  cbv zeta. split; [reflexivity|]. split; [reflexivity|].
  intros [[e He] _]. discriminate He.
Qed.

(** C5, amended.  A failure of the persistence layer is absorbed, not
    surfaced: when the read rejects, [getQueue] returns the empty queue
    normally and leaves the stored text alone; when the write rejects,
    [saveQueue] returns normally and leaves the stored text alone; and
    [addToQueue] and [processQueue] return normally in every world. *)
Theorem persistence_failures_are_absorbed (E : Env) (w : World) :
  (getItem_rejects E (clock w) = true ->
   outcome (getQueue E) w = Ok [] /\
   storage (exec (getQueue E) w) = storage w) /\
  (forall q, setItem_rejects E (clock w) = true ->
   outcome (saveQueue E q) w = Ok tt /\
   storage (exec (saveQueue E q) w) = storage w) /\
  (forall f t c u ch, exists i, outcome (addToQueue E f t c u ch) w = Ok i) /\
  outcome (processQueue E) w = Ok tt.
Proof.
  unfold outcome, exec. split; [|split; [|split]].
  - intros H. rewrite getQueue_run. unfold loaded. rewrite H. auto.
  - intros q H. rewrite saveQueue_run. unfold after_save. simpl.
    rewrite H. auto.
  - intros f t c u ch. rewrite addToQueue_run. eexists. reflexivity.
  - destruct (processQueue_spec E w) as (new & w' & Hrun & _).
    rewrite Hrun. reflexivity.
Qed.

Lemma persistence_failures_are_absorbed_witness :
  (outcome (getQueue env_load_fails) (world_of [sample_upload "X" pending 0])
   = Ok [] /\
   storage (exec (getQueue env_load_fails) (world_of [sample_upload "X" pending 0]))
   = Some (TextJson [sample_upload "X" pending 0])) /\
  (outcome (saveQueue env_save_fails []) (world_of [sample_upload "X" pending 0])
   = Ok tt /\
   storage (exec (saveQueue env_save_fails []) (world_of [sample_upload "X" pending 0]))
   = Some (TextJson [sample_upload "X" pending 0])).
Proof.
  split.
  - apply (persistence_failures_are_absorbed env_load_fails
             (world_of [sample_upload "X" pending 0])). reflexivity.
  - apply (persistence_failures_are_absorbed env_save_fails
             (world_of [sample_upload "X" pending 0])). reflexivity.
Defined.

(* ===================================================================== *)
(** ** Manual retry *)
(* ===================================================================== *)





(* ===================================================================== *)
(** ** What a drain attempts *)
(* ===================================================================== *)





(* ===================================================================== *)
(** ** Items left in [uploading] *)
(* ===================================================================== *)

(** C3, as stated, fails: a queue reloaded with one item in [uploading]
    goes through a drain with no transfer at all and with the item still
    [uploading]. *)
Lemma uploading_item_stays_stuck :
  let w := world_of [sample_upload "X" uploading 1] in
  let w' := exec (processQueue env_online) w in
  sent (trace w') = [] /\
  persisted w' = [sample_upload "X" uploading 1] /\
  ~ (exists u, In u (sent (trace w')) /\ id u = "X").
Proof.
  cbv zeta. vm_compute. repeat split. intros [u [[] _]].
Qed.

Lemma NoDup_map_same {A B} (f : A -> B) (l : list A) (a b : A) :
  NoDup (map f l) -> In a l -> In b l -> f a = f b -> a = b.
Proof.
  induction l as [|x l IH]; simpl; [intros _ []|].
  intros Hnd Ha Hb Hf. inversion Hnd as [|? ? Hnin Hnd']; subst.
  destruct Ha as [<-|Ha], Hb as [<-|Hb]; auto.
  - exfalso. apply Hnin. rewrite Hf. apply in_map. assumption.
  - exfalso. apply Hnin. rewrite <- Hf. apply in_map. assumption.
Qed.

(** C3, amended.  When the identifiers of the persisted queue are distinct,
    an item persisted as [uploading] is not selected by a drain: the drain
    returns normally, makes no transfer for that identifier, and leaves the
    item in the persisted queue exactly as it was, still [uploading]. *)
Theorem uploading_item_is_never_selected (E : Env) (w : World)
    (y : QueuedUpload) :
  NoDup (map id (persisted w)) ->
  In y (persisted w) ->
  status y = uploading ->
  exists new,
    outcome (processQueue E) w = Ok tt /\
    trace (exec (processQueue E) w) = trace w ++ new /\
    (forall u, In u (sent new) -> id u <> id y) /\
    In y (persisted (exec (processQueue E) w)).
Proof.
  intros Hnd Hy Hst.
  destruct (processQueue_spec E w)
    as (new & w' & Hrun & _ & Htr & _ & Hto & Hin).
  assert (Hsel : forall u, In u (filter eligible (persisted w)) -> id u <> id y).
  { intros u Hu Hid. apply filter_In in Hu. destruct Hu as [Hu He].
    assert (u = y) by (eapply NoDup_map_same; eauto). subst u.
    apply eligible_iff in He. rewrite Hst in He.
    destruct He as [He | [He _]]; discriminate He. }
  exists new. unfold outcome, exec. rewrite Hrun. simpl.
  split; [reflexivity|]. split; [assumption|].
  split; [intros u Hu; apply Hsel, Hin, Hu|].
  eapply touched_only_In; eauto.
  intros Hmem. apply in_map_iff in Hmem. destruct Hmem as [u [Hid Hu]].
  apply (Hsel u Hu Hid).
Qed.

Lemma uploading_item_is_never_selected_witness :
  exists new,
    trace (exec (processQueue env_online)
             (world_of [sample_upload "A" pending 0;
                        sample_upload "D" uploading 1]))
    = [] ++ new /\
    (forall u, In u (sent new) -> id u <> "D") /\
    In (sample_upload "D" uploading 1)
       (persisted (exec (processQueue env_online)
                     (world_of [sample_upload "A" pending 0;
                                sample_upload "D" uploading 1]))).
Proof.
  assert (Hnd : NoDup (map id (persisted
            (world_of [sample_upload "A" pending 0;
                       sample_upload "D" uploading 1])))).
  { simpl. constructor; [intros [H|[]]; discriminate H|].
    constructor; [intros []|constructor]. }
  destruct (uploading_item_is_never_selected env_online _
              (sample_upload "D" uploading 1) Hnd)
    as (new & _ & Htr & Hsent & Hin).
  - simpl. auto.
  - reflexivity.
  - exists new. split; [exact Htr|]. split; [exact Hsent | exact Hin].
Defined.

(* ===================================================================== *)
(** ** Bounded retries *)
(* ===================================================================== *)

Section FailingTransfers.

Variable E : Env.
Hypothesis Hnet : forall n, net_isConnected E n = true.
Hypothesis Hget : forall n, getItem_rejects E n = false.
Hypothesis Hset : forall n, setItem_rejects E n = false.
Hypothesis Hsend : forall n u, exists e, sendDocument_result E n u = inl e.

(** What a failed transfer leaves of the one item [y] of the queue. *)
Lemma processUpload_single_failure (y : QueuedUpload) (w : World) :
  storage w = Some (TextJson [y]) ->
  exists y' w',
    processUpload E y w = (Ok tt, w') /\
    storage w' = Some (TextJson [y']) /\
    isProcessing w' = isProcessing w /\
    id y' = id y /\
    attempts y' = attempts y + 1 /\
    status y' = (if MAX_RETRIES <=? attempts y then failed else pending).
Proof.
  intros Hst.
  destruct (processUpload E y w) as [r w'] eqn:Hrun.
  unfold processUpload in Hrun. unfold bind at 1 in Hrun.
  rewrite getQueue_run in Hrun.
  assert (Hl : loaded E w = [y]).
  { unfold loaded, persisted. rewrite Hget, Hst. reflexivity. }
  rewrite Hl in Hrun.
  assert (Hf : findIndex (fun u => (id u =? id y)%string) [y] = Some 0).
  { simpl. rewrite String.eqb_refl. reflexivity. }
  rewrite Hf in Hrun.
  unfold bind at 1, Date_toISOString at 1, bind at 1, tick, ret in Hrun.
  unfold bind at 1 in Hrun. rewrite saveQueue_run in Hrun.
  unfold bind at 1 in Hrun. rewrite notifyListeners_run in Hrun.
  unfold bind at 1 in Hrun.
  unfold attempt_transfer, try_catch, telegramService_sendDocument in Hrun.
  unfold bind at 1, tick at 1 in Hrun.
  unfold bind at 1, emit at 1, modify at 1 in Hrun.
  cbv beta iota in Hrun.
  match type of Hrun with
  | context [sendDocument_result E ?n y] => destruct (Hsend n y) as [e He]
  end.
  rewrite He in Hrun. unfold bind at 1, throw at 1 in Hrun.
  cbv beta iota in Hrun.
  generalize dependent Hrun.
  generalize (MAX_RETRIES <=? attempts y) as over. intros over Hrun.
  destruct over; unfold ret at 1 in Hrun; unfold bind at 1 in Hrun;
    rewrite saveQueue_run, notifyListeners_run in Hrun;
    injection Hrun as <- <-;
    eexists _, _; (split; [reflexivity|]); simpl; rewrite Hset; simpl;
    repeat split; reflexivity.
Qed.

(** One drain of a queue that holds the single pending item [y]. *)
Lemma failing_drain_single (y : QueuedUpload) (w : World) :
  storage w = Some (TextJson [y]) ->
  isProcessing w = false ->
  status y = pending ->
  exists y',
    storage (exec (processQueue E) w) = Some (TextJson [y']) /\
    isProcessing (exec (processQueue E) w) = false /\
    id y' = id y /\
    attempts y' = attempts y + 1 /\
    status y' = (if MAX_RETRIES <=? attempts y then failed else pending).
Proof.
  intros Hst Hp Hy.
  destruct (processQueue_running E w Hp (Hnet _)) as (new & w1 & Hrun & Hpq & _).
  assert (Hl : filter eligible (loaded E (with_isProcessing true
            (mkWorld (storage w) false (listeners w) (S (clock w))
               ((trace w ++ [EvProcessQueue]) ++ [EvNetInfoFetch]) (tasks w))))
          = [y]).
  { unfold loaded, persisted. simpl. rewrite Hget, Hst. simpl.
    unfold eligible. rewrite Hy. reflexivity. }
  rewrite Hl in Hrun. simpl forEach in Hrun.
  unfold bind at 1, drain_item, try_catch in Hrun. unfold bind at 1 in Hrun.
  destruct (processUpload_single_failure y
              (after_get (with_isProcessing true
                 (mkWorld (storage w) false (listeners w) (S (clock w))
                    ((trace w ++ [EvProcessQueue]) ++ [EvNetInfoFetch]) (tasks w)))))
    as (y' & w' & Hup & Hst' & Hp' & Hid & Hatt & Hstat); [exact Hst|].
  rewrite Hup in Hrun. unfold delay, emit, modify, ret in Hrun.
  injection Hrun as <-.
  exists y'. unfold exec. rewrite Hpq. simpl.
  repeat split; assumption.
Qed.

(** With every transfer failing, the third failure leaves a fresh item
    [pending] with three attempts, and the fourth marks it [failed]. *)
Lemma retry_cap_is_off_by_one (y : QueuedUpload) (w : World) :
  storage w = Some (TextJson [y]) ->
  isProcessing w = false ->
  status y = pending ->
  attempts y = 0 ->
  (exists y3, persisted (exec (drains E 3) w) = [y3] /\
              status y3 = pending /\ attempts y3 = 3) /\
  (exists y4, persisted (exec (drains E 4) w) = [y4] /\
              status y4 = failed /\ attempts y4 = 4).
Proof.
  intros Hst Hp Hy Ha.
  assert (Hstep : forall n w0,
            exec (drains E (S n)) w0
            = exec (drains E n) (exec (processQueue E) w0)).
  { intros n w0. simpl. unfold bind, exec.
    destruct (processQueue_spec E w0) as (? & w0' & Hrun & _).
    rewrite Hrun. reflexivity. }
  assert (Hzero : forall w0, exec (drains E 0) w0 = w0) by reflexivity.
  destruct (failing_drain_single y w Hst Hp Hy)
    as (y1 & Hst1 & Hp1 & _ & Ha1 & Hs1).
  rewrite Ha in Ha1, Hs1. simpl in Ha1, Hs1.
  destruct (failing_drain_single y1 _ Hst1 Hp1 Hs1)
    as (y2 & Hst2 & Hp2 & _ & Ha2 & Hs2).
  rewrite Ha1 in Ha2, Hs2. simpl in Ha2, Hs2.
  destruct (failing_drain_single y2 _ Hst2 Hp2 Hs2)
    as (y3 & Hst3 & Hp3 & _ & Ha3 & Hs3).
  rewrite Ha2 in Ha3, Hs3. simpl in Ha3, Hs3.
  destruct (failing_drain_single y3 _ Hst3 Hp3 Hs3)
    as (y4 & Hst4 & Hp4 & _ & Ha4 & Hs4).
  rewrite Ha3 in Ha4, Hs4. simpl in Ha4, Hs4.
  rewrite !Hstep, !Hzero.
  split.
  - exists y3. unfold persisted. rewrite Hst3. auto.
  - exists y4. unfold persisted. rewrite Hst4. auto.
Qed.

End FailingTransfers.

Example retry_cap_is_off_by_one_sample :
  (exists y3, persisted (exec (drains env_transfer_fails 3)
                           (world_of [sample_upload "Y" pending 0])) = [y3] /\
              status y3 = pending /\ attempts y3 = 3) /\
  (exists y4, persisted (exec (drains env_transfer_fails 4)
                           (world_of [sample_upload "Y" pending 0])) = [y4] /\
              status y4 = failed /\ attempts y4 = 4).
Proof.
  apply (retry_cap_is_off_by_one env_transfer_fails)
    with (y := sample_upload "Y" pending 0); try reflexivity.
  intros n u. eexists. reflexivity.
Qed.


(** C1 on the code.  With every transfer failing, an item enqueued as
    [pending] with no attempts is, after three drains and three failed
    transfers, [pending] with [attempts = 3]; the next drain transfers it a
    fourth time and only then marks it [failed], with [attempts = 4]; a
    drain after that makes no transfer. *)
Theorem third_failure_leaves_item_pending :
  let w0 := world_of [sample_upload "Y" pending 0] in
  let w3 := exec (drains env_transfer_fails 3) w0 in
  let w4 := exec (processQueue env_transfer_fails) w3 in
  let w5 := exec (processQueue env_transfer_fails) w4 in
  (length (sent (trace w3)) = 3 /\
   map status (persisted w3) = [pending] /\
   map attempts (persisted w3) = [3]) /\
  (length (sent (trace w4)) = 4 /\
   map status (persisted w4) = [failed] /\
   map attempts (persisted w4) = [4]) /\
  (length (sent (trace w5)) = 4 /\ persisted w5 = persisted w4).
Proof. cbv zeta. vm_compute. repeat split. Qed.

(* ===================================================================== *)
(** ** The task machine against the awaited call *)
(* ===================================================================== *)

Lemma ignores_tasks_ret {A} (a : A) : ignores_tasks (ret a).
Proof. intros ts w. reflexivity. Qed.

Lemma ignores_tasks_bind {A B} (c : M A) (k : A -> M B) :
  ignores_tasks c -> (forall a, ignores_tasks (k a)) ->
  ignores_tasks (bind c k).
Proof.
  intros Hc Hk ts w. unfold bind. rewrite Hc.
  destruct (c w) as [[a|e] w1]; simpl; [apply Hk | reflexivity].
Qed.

Lemma ignores_tasks_try_catch {A} (c : M A) (h : Exn -> M A) :
  ignores_tasks c -> (forall e, ignores_tasks (h e)) ->
  ignores_tasks (try_catch c h).
Proof.
  intros Hc Hh ts w. unfold try_catch. rewrite Hc.
  destruct (c w) as [[a|e] w1]; simpl; [reflexivity | apply Hh].
Qed.

Lemma ignores_tasks_forEach {A} (f : A -> M unit) (l : list A) :
  (forall a, ignores_tasks (f a)) -> ignores_tasks (forEach f l).
Proof.
  intros Hf. induction l as [|a l IH]; simpl.
  - apply ignores_tasks_ret.
  - apply ignores_tasks_bind; auto.
Qed.

Section Tasks.

Variable E : Env.

Lemma ignores_tasks_getQueue : ignores_tasks (getQueue E).
Proof. intros ts w. rewrite !getQueue_run. reflexivity. Qed.

Lemma ignores_tasks_saveQueue (q : Queue) : ignores_tasks (saveQueue E q).
Proof. intros ts w. rewrite !saveQueue_run. reflexivity. Qed.

Lemma ignores_tasks_notifyListeners (q : Queue) :
  ignores_tasks (notifyListeners q).
Proof. intros ts w. rewrite !notifyListeners_run. reflexivity. Qed.

Lemma ignores_tasks_Date : ignores_tasks (Date_toISOString E).
Proof. intros ts w. reflexivity. Qed.

Lemma ignores_tasks_attempt_transfer (upload : QueuedUpload) (i : nat)
    (q : Queue) :
  ignores_tasks (attempt_transfer E upload i q).
Proof.
  intros ts w.
  unfold attempt_transfer, try_catch, telegramService_sendDocument,
    response_file_id, Date_toISOString, databaseService_insertFile,
    bind, tick, emit, modify, throw, ret.
  generalize (MAX_RETRIES <=? attempts upload)%nat as over; intros over.
  destruct w as [st p ls c tr ts0]; simpl.
  destruct (sendDocument_result E c upload) as [e|r]; simpl.
  - destruct over; reflexivity.
  - destruct (result_document r); simpl; [|destruct over]; reflexivity.
Qed.

Lemma ignores_tasks_processUpload (upload : QueuedUpload) :
  ignores_tasks (processUpload E upload).
Proof.
  unfold processUpload.
  apply ignores_tasks_bind; [apply ignores_tasks_getQueue|]. intros queue.
  destruct (findIndex _ queue) as [i|]; [|apply ignores_tasks_ret].
  apply ignores_tasks_bind; [apply ignores_tasks_Date|]. intros now.
  apply ignores_tasks_bind; [apply ignores_tasks_saveQueue|]. intros _.
  apply ignores_tasks_bind; [apply ignores_tasks_notifyListeners|]. intros _.
  apply ignores_tasks_bind; [apply ignores_tasks_attempt_transfer|]. intros q2.
  apply ignores_tasks_bind; [apply ignores_tasks_saveQueue|]. intros _.
  apply ignores_tasks_notifyListeners.
Qed.

Lemma ignores_tasks_drain_item (upload : QueuedUpload) :
  ignores_tasks (drain_item E upload).
Proof.
  unfold drain_item. apply ignores_tasks_try_catch.
  - apply ignores_tasks_bind; [apply ignores_tasks_processUpload|].
    intros _ ts w. reflexivity.
  - intros e. apply ignores_tasks_ret.
Qed.

Lemma resume_run (i : nat) (pc : DrainPc) (w : World) :
  nth_error (tasks w) i = Some pc ->
  resume E i w
  = match resume_pc E pc w with
    | (Ok pc', w') =>
        (Ok tt, with_tasks (update_at i (fun _ => pc') (tasks w')) w')
    | (Throw e, w') => (Throw e, w')
    end.
Proof.
  intros Hnth. unfold resume, bind, gets. rewrite Hnth.
  destruct (resume_pc E pc w) as [[pc'|e] w']; reflexivity.
Qed.

Lemma resume_pc_items (u : QueuedUpload) (rest : list QueuedUpload) (w : World) :
  resume_pc E (AwaitItems (u :: rest)) w
  = next_item rest (exec (drain_item E u) w).
Proof.
  destruct (drain_item_spec E u w) as (new & w1 & Hrun & _).
  unfold resume_pc, bind, exec. rewrite Hrun. reflexivity.
Qed.

(** Resuming a task that stands in the loop, once per remaining item, is
    the rest of the loop followed by the release of the flag. *)
Lemma resume_items_run (l : list QueuedUpload) (w : World) (pcs : list DrainPc) :
  l <> [] ->
  tasks w = AwaitItems l :: pcs ->
  exec (run_schedule E (repeat 0 (length l))) w
  = with_tasks (Returned :: pcs)
      (with_isProcessing false (exec (forEach (drain_item E) l) w)).
Proof.
  revert w. induction l as [|u rest IH]; intros w Hne Hts; [congruence|].
  destruct (drain_item_spec E u w) as (new & w1 & Hrun & [_ Hts1] & _).
  assert (Hw1 : exec (drain_item E u) w = w1) by (unfold exec; rewrite Hrun; reflexivity).
  simpl repeat. simpl run_schedule. simpl forEach.
  unfold exec. unfold bind at 1 2.
  rewrite (resume_run 0 (AwaitItems (u :: rest))) by (rewrite Hts; reflexivity).
  rewrite resume_pc_items, Hw1, Hrun.
  destruct rest as [|u' rest'].
  - simpl. unfold modify, ret, bind. simpl. rewrite Hts1, Hts. reflexivity.
  - unfold next_item, ret.
    set (w1' := with_tasks _ w1).
    assert (Hw1' : w1' = with_tasks (AwaitItems (u' :: rest') :: pcs) w1).
    { unfold w1'. rewrite Hts1, Hts. reflexivity. }
    change (snd (run_schedule E (repeat 0 (length (u' :: rest'))) w1'))
      with (exec (run_schedule E (repeat 0 (length (u' :: rest')))) w1').
    rewrite IH; [|discriminate | rewrite Hw1'; reflexivity].
    rewrite Hw1'. unfold exec.
    rewrite (ignores_tasks_forEach (drain_item E) (u' :: rest')
               ignores_tasks_drain_item).
    reflexivity.
Qed.

Lemma resume_pc_net (w : World) :
  resume_pc E AwaitNetInfo w
  = let w' := with_trace (trace w ++ [EvNetInfoFetch])
                         (with_clock (S (clock w)) w) in
    if net_isConnected E (clock w)
    then (Ok AwaitQueue, with_isProcessing true w')
    else (Ok Returned, w').
Proof.
  unfold resume_pc, NetInfo_fetch, bind, tick, emit, modify, ret. simpl.
  destruct (net_isConnected E (clock w)); reflexivity.
Qed.

Lemma resume_pc_queue (w : World) :
  resume_pc E AwaitQueue w
  = next_item (filter eligible (loaded E w)) (after_get w).
Proof. unfold resume_pc, bind. rewrite getQueue_run. reflexivity. Qed.

(** A drain task that runs alone to its end does what the awaited
    [processQueue()] does. *)
Lemma lone_task_is_processQueue (w : World) :
  isProcessing w = false ->
  tasks w = [] ->
  exists n,
    exec (processQueue_call ;; run_schedule E (repeat 0 n)) w
    = with_tasks [Returned] (exec (processQueue E) w).
Proof.
  intros Hp Hts.
  unfold exec at 1. unfold bind at 1. rewrite processQueue_call_run, Hp, Hts.
  simpl app.
  set (wa := with_tasks [AwaitNetInfo] _).
  destruct (net_isConnected E (clock w)) eqn:Hnet.
  - set (w0 := with_isProcessing true
        (mkWorld (storage w) false (listeners w) (S (clock w))
           ((trace w ++ [EvProcessQueue]) ++ [EvNetInfoFetch]) (tasks w))).
    destruct (processQueue_running E w Hp Hnet) as (new & w1 & Hrun & Hpq & _).
    fold w0 in Hrun.
    exists (2 + length (filter eligible (loaded E w0))).
    unfold exec. rewrite Hpq. simpl snd.
    simpl repeat. simpl run_schedule.
    unfold bind at 1.
    rewrite (resume_run 0 AwaitNetInfo wa) by reflexivity.
    rewrite resume_pc_net. change (clock wa) with (clock w). rewrite Hnet.
    cbv beta iota zeta.
    set (wb := with_tasks (update_at _ _ _) _).
    unfold bind at 1.
    rewrite (resume_run 0 AwaitQueue wb) by reflexivity.
    rewrite resume_pc_queue.
    change (loaded E wb) with (loaded E w0).
    destruct (filter eligible (loaded E w0)) as [|u rest] eqn:Hl.
    + simpl in Hrun. injection Hrun as <-.
      unfold next_item, bind, modify, ret. simpl.
      unfold with_isProcessing, with_tasks, after_get, w0.
      simpl. rewrite ?Hp, ?Hts. reflexivity.
    + unfold next_item, ret. cbv beta iota zeta.
      set (w2 := with_tasks _ (after_get wb)).
      assert (Hw2 : w2 = with_tasks [AwaitItems (u :: rest)] (after_get w0)).
      { unfold w2, wb, wa, w0, after_get, with_tasks, with_isProcessing,
          with_trace, with_clock. simpl. rewrite ?Hp, ?Hts. reflexivity. }
      change (snd (run_schedule E (repeat 0 (length (u :: rest))) w2))
        with (exec (run_schedule E (repeat 0 (length (u :: rest)))) w2).
      rewrite (resume_items_run (u :: rest) w2 []);
        [|discriminate | rewrite Hw2; reflexivity].
      rewrite Hw2. unfold exec.
      rewrite (ignores_tasks_forEach (drain_item E) (u :: rest)
                 ignores_tasks_drain_item).
      rewrite Hrun. simpl. rewrite ?Hts. reflexivity.
  - exists 1. simpl repeat. simpl run_schedule.
    unfold bind at 1.
    rewrite (resume_run 0 AwaitNetInfo wa) by reflexivity.
    rewrite resume_pc_net. change (clock wa) with (clock w). rewrite Hnet.
    unfold processQueue, NetInfo_fetch, bind, gets, tick, emit, modify, ret,
      exec.
    destruct w as [st p ls c tr ts]; simpl in *. subst p ts.
    unfold with_trace, with_clock, with_tasks; simpl. rewrite Hnet. simpl.
    rewrite <- app_assoc. reflexivity.
Qed.

End Tasks.

(* ===================================================================== *)
(** ** Overlapping drains *)
(* ===================================================================== *)

(** C4 on the code.  Two calls of [processQueue] made before either is
    resumed both pass the [isProcessing] test; resumed in turn, both load
    the queue while its one item is [pending] and both transfer it; so do
    two calls made by the network listener on two connectivity events.  One
    call alone, or two calls one after the other, transfer it once. *)
Theorem overlapping_drains_transfer_twice :
  let x := sample_upload "X" pending 0 in
  let w0 := world_of [x] in
  let overlapped :=
    exec (processQueue_call ;; processQueue_call ;;
          run_schedule env_online [0; 1; 0; 1; 0; 1]) w0 in
  let by_events :=
    exec (onNetworkChange true ;; onNetworkChange true ;;
          run_schedule env_online [0; 1; 0; 1; 0; 1]) w0 in
  let alone := exec (processQueue env_online) w0 in
  let in_turn := exec (processQueue env_online ;; processQueue env_online) w0 in
  tasks overlapped = [Returned; Returned] /\
  sent (trace overlapped) = [x; x] /\
  map attempts (persisted overlapped) = [2] /\
  sent (trace by_events) = [x; x] /\
  sent (trace alone) = [x] /\
  sent (trace in_turn) = [x].
Proof. cbv zeta. vm_compute. repeat split. Qed.

(* ===================================================================== *)
(** ** Scenarios *)
(* ===================================================================== *)

(** A listener that throws does not keep the snapshot from the listeners
    subscribed after it. *)
Example throwing_listener_does_not_block :
  let q := [sample_upload "X" pending 0] in
  notifyListeners q
    (world_with_listeners q
       [listener_quiet 1; listener_throwing 2; listener_quiet 3])
  = (Ok tt,
     with_trace [EvListener 1 q; EvListener 2 q; EvListener 3 q]
       (world_with_listeners q
          [listener_quiet 1; listener_throwing 2; listener_quiet 3])).
Proof. reflexivity. Qed.

(** Enqueueing while offline persists the item as [pending], starts no
    drain and makes no transfer. *)
Example enqueue_while_offline :
  let w := exec (addToQueue env_offline sample_file "work" "documents" "alice"
                            "-100200300") (world_of []) in
  map status (persisted w) = [pending] /\ tasks w = [] /\ sent (trace w) = [].
Proof. cbv zeta. vm_compute. repeat split. Qed.

(** A drain whose transfer succeeds transfers the pending item once,
    records the file in the database and marks the item [completed]. *)
Example drain_completes_item :
  let x := sample_upload "X" pending 0 in
  let w := exec (processQueue env_online) (world_of [x]) in
  sent (trace w) = [x] /\
  persisted w
  = [mkQueuedUpload "X" sample_file sample_metadata completed 1
       (Some "2024-01-02T00:00:00.000Z") None "2024-01-01T00:00:00.000Z"] /\
  In (EvInsertFile
        (mkFileMetadata "BQACAgates" "report.pdf" "application/pdf" 2048
           "work" "documents" "2024-01-02T00:00:00.000Z" "alice" "-100200300"))
     (trace w) /\
  isProcessing w = false.
Proof. cbv zeta. vm_compute. repeat split. auto 20. Qed.

(** While a drain is between its first and its second item, a snapshot
    shows the first [completed] and the second still [pending]. *)
Example snapshot_between_items :
  let w := exec (processQueue_call ;; run_schedule env_online [0; 0; 0])
                (world_of [sample_upload "A" pending 0;
                           sample_upload "B" pending 0]) in
  tasks w = [AwaitItems [sample_upload "B" pending 0]] /\
  fst (getQueue env_online w)
  = Ok [mkQueuedUpload "A" sample_file sample_metadata completed 1
          (Some "2024-01-02T00:00:00.000Z") None "2024-01-01T00:00:00.000Z";
        sample_upload "B" pending 0].
Proof. cbv zeta. vm_compute. repeat split. Qed.

(* ===================================================================== *)
(** ** Queue statistics *)
(* ===================================================================== *)

Lemma status_partition (q : Queue) :
  length q
  = length (filter (fun u => Status_eqb (status u) pending) q)
    + length (filter (fun u => Status_eqb (status u) uploading) q)
    + length (filter (fun u => Status_eqb (status u) completed) q)
    + length (filter (fun u => Status_eqb (status u) failed) q).
Proof.
  induction q as [|u q IH]; simpl; [reflexivity|].
  destruct (status u); simpl; lia.
Qed.

(** X1.  [getQueueStats] never throws and only reads: the stored text is
    left as it is and the one call it makes is the read.  Its [total] is
    the length of the queue [getQueue] returns, and [total] is always the
    sum of the four status counts; when the read fails all five numbers
    are zero. *)
Theorem getQueueStats_partition (E : Env) (w : World) :
  exists s,
    outcome (getQueueStats E) w = Ok s /\
    storage (exec (getQueueStats E) w) = storage w /\
    trace (exec (getQueueStats E) w) = trace w ++ [EvGetItem] /\
    st_total s = length (loaded E w) /\
    st_total s = st_pending s + st_uploading s + st_completed s + st_failed s /\
    (getItem_rejects E (clock w) = true -> s = mkQueueStats 0 0 0 0 0).
Proof.
  unfold outcome, exec, getQueueStats, bind. rewrite getQueue_run.
  eexists. split; [reflexivity|]. simpl.
  split; [reflexivity|]. split; [reflexivity|]. split; [reflexivity|].
  split; [apply status_partition|].
  intros H. unfold loaded. rewrite H. reflexivity.
Qed.

Lemma getQueueStats_partition_witness :
  outcome (getQueueStats env_load_fails)
          (world_of [sample_upload "A" pending 0; sample_upload "B" failed 3])
  = Ok (mkQueueStats 0 0 0 0 0).
Proof.
  destruct (getQueueStats_partition env_load_fails
              (world_of [sample_upload "A" pending 0; sample_upload "B" failed 3]))
    as (s & Hs & _ & _ & _ & _ & Hzero).
  rewrite Hs. f_equal. apply Hzero. reflexivity.
Defined.

(* ===================================================================== *)
(** ** Removing and clearing *)
(* ===================================================================== *)

Lemma filter_all_true {A} (p : A -> bool) (l : list A) :
  (forall x, In x l -> p x = true) -> filter p l = l.
Proof.
  induction l as [|a l IH]; simpl; intros H; [reflexivity|].
  rewrite (H a) by auto. f_equal. apply IH. auto.
Qed.

Lemma filter_idem {A} (p : A -> bool) (l : list A) :
  filter p (filter p l) = filter p l.
Proof.
  apply filter_all_true. intros x Hx. apply filter_In in Hx. tauto.
Qed.

Lemma persisted_after_ok_save (E : Env) (q : Queue) (w : World) :
  setItem_rejects E (clock w) = false ->
  persisted (after_notify q (after_save E q w)) = q.
Proof. intros H. unfold persisted. simpl. rewrite H. reflexivity. Qed.

Lemma exec_bind {A B} (c : M A) (k : A -> M B) (w : World) (a : A) :
  outcome c w = Ok a -> exec (bind c k) w = exec (k a) (exec c w).
Proof.
  unfold outcome, exec, bind. destruct (c w) as [r w']; simpl.
  intros ->. reflexivity.
Qed.

Lemma outcome_bind {A B} (c : M A) (k : A -> M B) (w : World) (a : A) :
  outcome c w = Ok a -> outcome (bind c k) w = outcome (k a) (exec c w).
Proof.
  unfold outcome, exec, bind. destruct (c w) as [r w']; simpl.
  intros ->. reflexivity.
Qed.

Lemma removeFromQueue_persisted (E : Env) (w : World) (uploadId : string) :
  getItem_rejects E (clock w) = false ->
  setItem_rejects E (S (clock w)) = false ->
  persisted (exec (removeFromQueue E uploadId) w)
  = filter (fun u => negb (id u =? uploadId)%string) (persisted w).
Proof.
  intros Hget Hset. unfold exec. rewrite removeFromQueue_run. simpl snd.
  rewrite persisted_after_ok_save by exact Hset.
  unfold loaded. rewrite Hget. reflexivity.
Qed.

(** X2.  When its read and its write of the storage succeed,
    [removeFromQueue(uploadId)] persists the queue without the items whose
    identifier is [uploadId], all of them, and with every other item in
    its place; an identifier that is not in the queue leaves the persisted
    queue as it was. *)
Theorem removeFromQueue_removes_exactly (E : Env) (w : World)
    (uploadId : string) :
  getItem_rejects E (clock w) = false ->
  setItem_rejects E (S (clock w)) = false ->
  let q' := persisted (exec (removeFromQueue E uploadId) w) in
  outcome (removeFromQueue E uploadId) w = Ok tt /\
  q' = filter (fun u => negb (id u =? uploadId)%string) (persisted w) /\
  ~ In uploadId (map id q') /\
  (forall u, In u q' <-> In u (persisted w) /\ id u <> uploadId) /\
  (~ In uploadId (map id (persisted w)) -> q' = persisted w).
Proof.
  intros Hget Hset. cbv zeta. unfold outcome, exec.
  rewrite removeFromQueue_run. simpl fst. simpl snd.
  rewrite persisted_after_ok_save by exact Hset.
  assert (Hl : loaded E w = persisted w) by (unfold loaded; rewrite Hget; reflexivity).
  rewrite Hl.
  assert (Hmem : forall u,
            In u (filter (fun u => negb (id u =? uploadId)%string) (persisted w))
            <-> In u (persisted w) /\ id u <> uploadId).
  { intros u. rewrite filter_In, negb_true_iff, String.eqb_neq. reflexivity. }
  split; [reflexivity|]. split; [reflexivity|]. split; [|split].
  - intros Hin. apply in_map_iff in Hin. destruct Hin as [u [Hid Hu]].
    apply Hmem in Hu. tauto.
  - exact Hmem.
  - intros Hnin. apply filter_all_true. intros u Hu.
    apply negb_true_iff, String.eqb_neq. intros Hid. apply Hnin.
    apply in_map_iff. exists u. auto.
Qed.

Lemma removeFromQueue_removes_exactly_witness :
  persisted (exec (removeFromQueue env_online "B")
               (world_of [sample_upload "A" pending 0;
                          sample_upload "B" failed 3;
                          sample_upload "C" completed 1;
                          sample_upload "B" pending 0]))
  = [sample_upload "A" pending 0; sample_upload "C" completed 1].
Proof.
  apply (removeFromQueue_removes_exactly env_online
           (world_of [sample_upload "A" pending 0;
                      sample_upload "B" failed 3;
                      sample_upload "C" completed 1;
                      sample_upload "B" pending 0]) "B"); reflexivity.
Defined.

Lemma addToQueue_world (E : Env) (w : World) (f : FileInfo) (t c u ch : string) :
  let upload :=
    mkQueuedUpload (generateId_result E (clock w))
      (mkFileInfo (uri f) (name f) (type f) (size f))
      (mkMetadata t c u ch) pending 0 None None
      (date_toISOString E (S (clock w))) in
  let w' := exec (addToQueue E f t c u ch) w in
  clock w' = 5 + clock w /\
  storage w' = (if setItem_rejects E (3 + clock w) then storage w
                else Some (TextJson (loaded E (with_clock (2 + clock w) w)
                                     ++ [upload]))) /\
  isProcessing w' = isProcessing w /\
  listeners w' = listeners w.
Proof.
  cbv zeta. unfold exec. rewrite addToQueue_run. cbv zeta. simpl snd.
  destruct (net_isConnected E _); [destruct (isProcessing w) eqn:Hp|];
    simpl; rewrite ?Hp; repeat split; reflexivity.
Qed.

(** X3.  Enqueue and dequeue undo each other: when the storage works and
    the generated identifier is not yet in the queue, [addToQueue] followed
    by [removeFromQueue] of the identifier it returned persists the queue
    that was persisted before [addToQueue]. *)
Theorem addToQueue_then_remove_restores (E : Env) (w : World) (f : FileInfo)
    (t c u ch : string) :
  (forall n, getItem_rejects E n = false) ->
  (forall n, setItem_rejects E n = false) ->
  ~ In (generateId_result E (clock w)) (map id (persisted w)) ->
  persisted (exec (new_id <- addToQueue E f t c u ch ;;
                   removeFromQueue E new_id) w)
  = persisted w.
Proof.
  intros Hget Hset Hfresh.
  rewrite (exec_bind _ _ w (generateId_result E (clock w)))
    by (unfold outcome; rewrite addToQueue_run; reflexivity).
  destruct (addToQueue_world E w f t c u ch) as (_ & Hst & _ & _).
  rewrite Hset in Hst. unfold loaded in Hst. rewrite Hget in Hst.
  rewrite removeFromQueue_persisted by auto.
  unfold persisted at 1. rewrite Hst.
  change (persisted (with_clock (2 + clock w) w)) with (persisted w).
  rewrite filter_app. simpl. rewrite String.eqb_refl. simpl.
  rewrite app_nil_r. apply filter_all_true. intros x Hx.
  apply negb_true_iff, String.eqb_neq. intros Hid. apply Hfresh.
  apply in_map_iff. exists x. auto.
Qed.

Lemma addToQueue_then_remove_restores_witness :
  persisted (exec (new_id <- addToQueue env_online sample_file "work"
                               "documents" "alice" "-100200300" ;;
                   removeFromQueue env_online new_id)
                  (world_of [sample_upload "A" pending 0;
                             sample_upload "B" completed 1]))
  = [sample_upload "A" pending 0; sample_upload "B" completed 1].
Proof.
  apply (addToQueue_then_remove_restores env_online
           (world_of [sample_upload "A" pending 0;
                      sample_upload "B" completed 1])); try reflexivity.
  simpl. intros [H|[H|[]]]; discriminate H.
Defined.

Lemma clearCompleted_persisted (E : Env) (w : World) :
  getItem_rejects E (clock w) = false ->
  setItem_rejects E (S (clock w)) = false ->
  persisted (exec (clearCompleted E) w)
  = filter (fun u => negb (Status_eqb (status u) completed)) (persisted w).
Proof.
  intros Hget Hset. unfold exec. rewrite clearCompleted_run. simpl snd.
  rewrite persisted_after_ok_save by exact Hset.
  unfold loaded. rewrite Hget. reflexivity.
Qed.

Lemma no_completed_left (q : Queue) :
  filter (fun u => Status_eqb (status u) completed)
         (filter (fun u => negb (Status_eqb (status u) completed)) q) = [].
Proof.
  induction q as [|u q IH]; simpl; [reflexivity|].
  destruct (Status_eqb (status u) completed) eqn:Hb; simpl;
    rewrite ?Hb; assumption.
Qed.

(** X4.  When the storage works, [clearCompleted] persists the queue
    without its [completed] items and with every other item in its place;
    clearing a second time changes nothing; and the statistics read
    afterwards count no [completed] item. *)
Theorem clearCompleted_removes_completed (E : Env) (w : World) :
  (forall n, getItem_rejects E n = false) ->
  (forall n, setItem_rejects E n = false) ->
  let w' := exec (clearCompleted E) w in
  persisted w'
  = filter (fun u => negb (Status_eqb (status u) completed)) (persisted w) /\
  (forall u, In u (persisted w') <-> In u (persisted w) /\ status u <> completed) /\
  persisted (exec (clearCompleted E) w') = persisted w' /\
  (exists s, outcome (getQueueStats E) w' = Ok s /\ st_completed s = 0).
Proof.
  intros Hget Hset. cbv zeta.
  rewrite !clearCompleted_persisted by auto.
  split; [reflexivity|]. split; [|split].
  - intros u. rewrite filter_In, negb_true_iff.
    split; intros [Hu Hs]; (split; [exact Hu|]).
    + intros Hc. rewrite Hc in Hs. discriminate.
    + destruct (Status_eqb (status u) completed) eqn:Hb; [|reflexivity].
      apply Status_eqb_eq in Hb. contradiction.
  - apply filter_idem.
  - unfold outcome, getQueueStats, bind. rewrite getQueue_run.
    eexists. split; [reflexivity|]. simpl.
    unfold loaded. rewrite Hget, clearCompleted_persisted by auto.
    rewrite no_completed_left. reflexivity.
Qed.

Lemma clearCompleted_removes_completed_witness :
  persisted (exec (clearCompleted env_online)
               (world_of [sample_upload "A" completed 1;
                          sample_upload "B" failed 3;
                          sample_upload "C" completed 2;
                          sample_upload "D" pending 0]))
  = [sample_upload "B" failed 3; sample_upload "D" pending 0].
Proof.
  apply (clearCompleted_removes_completed env_online
           (world_of [sample_upload "A" completed 1;
                      sample_upload "B" failed 3;
                      sample_upload "C" completed 2;
                      sample_upload "D" pending 0])); reflexivity.
Defined.



(* ===================================================================== *)
(** ** Subscriptions *)
(* ===================================================================== *)

Lemma filter_other_listeners (l : Listener) (ls : list Listener) :
  (forall l', In l' ls -> lid l' <> lid l) ->
  filter (fun l' => negb (lid l' =? lid l)) ls = ls.
Proof.
  intros H. apply filter_all_true. intros x Hx.
  apply negb_true_iff, Nat.eqb_neq. auto.
Qed.

(** X6.  After [unsubscribe] of a listener a broadcast calls exactly the
    listeners that were subscribed and are not that listener, in their
    subscription order, and never calls that listener, however many times
    it had been subscribed. *)
Theorem unsubscribe_stops_notifications (w : World) (l : Listener) (q : Queue) :
  let w' := exec (unsubscribe l) w in
  listeners w' = filter (fun l' => negb (lid l' =? lid l)) (listeners w) /\
  (forall l', In l' (listeners w') <-> In l' (listeners w) /\ lid l' <> lid l) /\
  trace (exec (notifyListeners q) w')
  = trace w ++ broadcast (listeners w') q /\
  (forall q', ~ In (EvListener (lid l) q') (broadcast (listeners w') q)).
Proof.
  cbv zeta. split; [reflexivity|]. split; [|split].
  - intros l'. unfold exec, unsubscribe, modify. simpl.
    rewrite filter_In, negb_true_iff, Nat.eqb_neq. reflexivity.
  - unfold exec. rewrite notifyListeners_run. reflexivity.
  - intros q' Hin. unfold broadcast in Hin. apply in_map_iff in Hin.
    destruct Hin as [l' [Heq Hl']]. injection Heq as Hid _.
    unfold exec, unsubscribe, modify in Hl'. simpl in Hl'.
    apply filter_In in Hl'. destruct Hl' as [_ Hne].
    apply negb_true_iff, Nat.eqb_neq in Hne. contradiction.
Qed.

(** X7.  Subscribing a listener that is not subscribed, once or twice, and
    then calling the function [subscribe] returned once, leaves the list of
    listeners as it was: one [unsubscribe] removes every entry of the
    listener. *)
Theorem subscribe_unsubscribe_restores (w : World) (l : Listener) :
  (forall l', In l' (listeners w) -> lid l' <> lid l) ->
  listeners (exec (subscribe l ;; unsubscribe l) w) = listeners w /\
  listeners (exec (subscribe l ;; subscribe l ;; unsubscribe l) w)
  = listeners w /\
  length (listeners (exec (subscribe l ;; subscribe l) w))
  = 2 + length (listeners w).
Proof.
  intros Hnew. unfold exec, subscribe, unsubscribe, bind, modify. simpl.
  rewrite <- !app_assoc, !filter_app. simpl. rewrite Nat.eqb_refl. simpl.
  rewrite !app_nil_r, filter_other_listeners by exact Hnew.
  rewrite !length_app. simpl. repeat split; lia.
Qed.

Lemma subscribe_unsubscribe_restores_witness :
  listeners (exec (subscribe (listener_quiet 2) ;; subscribe (listener_quiet 2) ;;
                   unsubscribe (listener_quiet 2))
                  (world_with_listeners [] [listener_throwing 1]))
  = [listener_throwing 1].
Proof.
  apply (subscribe_unsubscribe_restores
           (world_with_listeners [] [listener_throwing 1]) (listener_quiet 2)).
  simpl. intros l' [<-|[]]. discriminate.
Defined.

(* ===================================================================== *)
(** ** The guards and the flag of [processQueue] *)
(* ===================================================================== *)

Lemma processQueue_inert (E : Env) (w : World) :
  isProcessing w = true \/ net_isConnected E (clock w) = false ->
  outcome (processQueue E) w = Ok tt /\
  storage (exec (processQueue E) w) = storage w /\
  isProcessing (exec (processQueue E) w) = isProcessing w.
Proof.
  intros H.
  unfold outcome, exec, processQueue, bind, emit, modify, gets, NetInfo_fetch,
    tick, ret.
  destruct w as [st p ls c tr ts]; simpl in *.
  destruct p; simpl; [repeat split; reflexivity|].
  destruct H as [H|H]; [discriminate|].
  unfold with_trace, with_clock; simpl. rewrite H. simpl.
  repeat split; reflexivity.
Qed.

(** X8.  A [processQueue] that finds a drain running, or the device
    offline, is inert: it returns normally with the stored text, the flag,
    the listeners and the task pool as they were, and the only calls it
    makes are its own entry and, when no drain is running, the
    connectivity query; so it reads and writes no storage, transfers
    nothing and calls no listener. *)
Theorem processQueue_guards_are_inert (E : Env) (w : World) :
  isProcessing w = true \/ net_isConnected E (clock w) = false ->
  let w' := exec (processQueue E) w in
  outcome (processQueue E) w = Ok tt /\
  storage w' = storage w /\
  isProcessing w' = isProcessing w /\
  listeners w' = listeners w /\
  tasks w' = tasks w /\
  trace w' = trace w ++ (if isProcessing w then [EvProcessQueue]
                         else [EvProcessQueue; EvNetInfoFetch]).
Proof.
  intros H. cbv zeta.
  unfold outcome, exec, processQueue, bind, emit, modify, gets, NetInfo_fetch,
    tick, ret.
  destruct w as [st p ls c tr ts]; simpl in *.
  destruct p; simpl; [repeat split; reflexivity|].
  destruct H as [H|H]; [discriminate|].
  unfold with_trace, with_clock; simpl. rewrite H. simpl.
  rewrite <- app_assoc. repeat split; reflexivity.
Qed.

Lemma processQueue_guards_are_inert_witness :
  storage (exec (processQueue env_offline)
             (world_of [sample_upload "X" pending 0]))
  = Some (TextJson [sample_upload "X" pending 0]) /\
  trace (exec (processQueue env_offline)
           (world_of [sample_upload "X" pending 0]))
  = [EvProcessQueue; EvNetInfoFetch].
Proof.
  destruct (processQueue_guards_are_inert env_offline
              (world_of [sample_upload "X" pending 0]))
    as (_ & Hst & _ & _ & _ & Htr); [right; reflexivity|].
  split; [exact Hst | exact Htr].
Defined.

(** X9.  An awaited [processQueue] returns with [isProcessing] as it found
    it, in every world and whatever the storage, the network and the
    transfers do: a drain that set the flag always clears it again. *)
Theorem processQueue_restores_flag (E : Env) (w : World) :
  outcome (processQueue E) w = Ok tt /\
  isProcessing (exec (processQueue E) w) = isProcessing w.
Proof.
  destruct (isProcessing w) eqn:Hp.
  - destruct (processQueue_inert E w (or_introl Hp))
      as (Hok & _ & Hflag).
    rewrite Hp in Hflag. auto.
  - destruct (net_isConnected E (clock w)) eqn:Hnet.
    + destruct (processQueue_running E w Hp Hnet) as (new & w1 & _ & Hpq & _).
      unfold outcome, exec. rewrite Hpq. auto.
    + destruct (processQueue_inert E w (or_intror Hnet))
        as (Hok & _ & Hflag).
      rewrite Hp in Hflag. auto.
Qed.

(** X10.  [addToQueue] while the device is offline starts no drain and
    transfers nothing; while it is online with no drain running it leaves
    exactly one new drain task, suspended at its connectivity query; in
    either case it makes no transfer itself and leaves the flag alone. *)
Theorem addToQueue_starts_drain_only_online (E : Env) (w : World)
    (f : FileInfo) (t c u ch : string) :
  let w' := exec (addToQueue E f t c u ch) w in
  isProcessing w' = isProcessing w /\
  (exists new, trace w' = trace w ++ new /\ sent new = []) /\
  (net_isConnected E (4 + clock w) = false -> tasks w' = tasks w) /\
  (net_isConnected E (4 + clock w) = true -> isProcessing w = false ->
   tasks w' = tasks w ++ [AwaitNetInfo]) /\
  (isProcessing w = true -> tasks w' = tasks w).
Proof.
  cbv zeta. unfold exec. rewrite addToQueue_run. cbv zeta. simpl snd.
  set (q := loaded E _ ++ [_]).
  match goal with
  | |- context [net_isConnected E ?x] => change x with (4 + clock w)
  end.
  split; [destruct (net_isConnected E _); [destruct (isProcessing w) eqn:Hp|];
          simpl; rewrite ?Hp; reflexivity|].
  split.
  { exists ([EvGetItem]
            ++ (EvSetItem q (negb (setItem_rejects E (S (S (S (clock w))))))
                :: broadcast (listeners w) q)
            ++ EvNetInfoFetch ::
               (if net_isConnected E (4 + clock w) then [EvProcessQueue] else [])).
    split.
    - destruct (net_isConnected E _); [destruct (isProcessing w)|];
        simpl; rewrite <- ?app_assoc; reflexivity.
    - simpl. rewrite sent_app, sent_broadcast.
      destruct (net_isConnected E _); reflexivity. }
  split; [intros ->; reflexivity|].
  split; [intros -> ->; reflexivity|].
  intros ->. destruct (net_isConnected E _); reflexivity.
Qed.

Lemma addToQueue_starts_drain_only_online_witness :
  tasks (exec (addToQueue env_offline sample_file "work" "documents" "alice"
                 "-100200300") (world_of []))
  = [] /\
  tasks (exec (addToQueue env_online sample_file "work" "documents" "alice"
                 "-100200300") (world_of []))
  = [AwaitNetInfo].
Proof.
  split.
  - destruct (addToQueue_starts_drain_only_online env_offline (world_of [])
                sample_file "work" "documents" "alice" "-100200300")
      as (_ & _ & Hoff & _).
    apply Hoff. reflexivity.
  - destruct (addToQueue_starts_drain_only_online env_online (world_of [])
                sample_file "work" "documents" "alice" "-100200300")
      as (_ & _ & _ & Hon & _).
    apply Hon; reflexivity.
Defined.

(* ===================================================================== *)
(** ** What a drain does to the persisted queue *)
(* ===================================================================== *)

Lemma Forall2_compose {A} (R1 R2 R3 : A -> A -> Prop) (l1 l2 l3 : list A) :
  Forall2 R1 l1 l2 -> Forall2 R2 l2 l3 ->
  (forall a b c, In a l1 -> R1 a b -> R2 b c -> R3 a c) ->
  Forall2 R3 l1 l3.
Proof.
  intros H12. revert l3. induction H12 as [|a b l1 l2 Hab _ IH];
    intros l3 H23 Hc; inversion H23 as [|b' c l2' l3' Hbc Hrest]; subst.
  - constructor.
  - constructor.
    + apply (Hc a b c); simpl; auto.
    + apply IH; [assumption|]. intros x y z Hx. apply Hc. simpl. auto.
Qed.

Lemma Forall2_refl_In {A} (R : A -> A -> Prop) (l : list A) :
  (forall a, In a l -> R a a) -> Forall2 R l l.
Proof.
  induction l as [|a l IH]; intros H; constructor.
  - apply H. simpl. auto.
  - apply IH. intros x Hx. apply H. simpl. auto.
Qed.

Lemma Forall2_update_at {A} (R : A -> A -> Prop) (f : A -> A) (i : nat)
    (l : list A) :
  (forall a, R a a) -> (forall a, R a (f a)) -> Forall2 R l (update_at i f l).
Proof.
  intros Hrefl Hf. revert i. induction l as [|a l IH]; intros [|i]; simpl;
    constructor; auto.
  apply Forall2_refl_In. auto.
Qed.

Lemma keeps_refl (a : QueuedUpload) : keeps a a.
Proof. unfold keeps. repeat split; lia. Qed.

Lemma keeps_trans (a b c : QueuedUpload) : keeps a b -> keeps b c -> keeps a c.
Proof.
  unfold keeps. intros (H1 & H2 & H3 & H4 & H5) (K1 & K2 & K3 & K4 & K5).
  repeat split; try congruence. lia.
Qed.

Lemma keeps_mark_uploading (now : string) (a : QueuedUpload) :
  keeps a (mark_uploading now a).
Proof. unfold keeps. simpl. repeat split; lia. Qed.

Section DrainEffect.

Variable E : Env.

Lemma keeps_transfer_outcome (upload : QueuedUpload)
    (fin : QueuedUpload -> QueuedUpload) (now : string) (a : QueuedUpload) :
  transfer_outcome upload fin -> keeps a (fin (mark_uploading now a)).
Proof.
  intros [-> | (msg & ->)].
  - unfold keeps. simpl. repeat split; lia.
  - destruct (MAX_RETRIES <=? attempts upload); unfold keeps; simpl;
      repeat split; lia.
Qed.

Lemma attempt_transfer_outcome (upload : QueuedUpload) (i : nat) (q : Queue)
    (w : World) :
  exists fin c' new,
    attempt_transfer E upload i q w
    = (Ok (update_at i fin q),
       mkWorld (storage w) (isProcessing w) (listeners w) c'
               (trace w ++ EvSendDocument upload :: new) (tasks w)) /\
    transfer_outcome upload fin /\
    c' = (if transfer_ok E (clock w) upload then 2 + clock w else 1 + clock w) /\
    (transfer_ok E (clock w) upload = true -> fin = mark_completed) /\
    (transfer_ok E (clock w) upload = false ->
     exists msg, fin = if MAX_RETRIES <=? attempts upload
                       then mark_failed msg else mark_pending msg).
Proof.
  unfold attempt_transfer, try_catch, telegramService_sendDocument,
    response_file_id, Date_toISOString, databaseService_insertFile,
    bind, tick, emit, modify, throw, ret, transfer_outcome, transfer_ok.
  generalize (MAX_RETRIES <=? attempts upload)%nat as over; intros over.
  destruct w as [st p ls c tr ts]; simpl.
  destruct (sendDocument_result E c upload) as [e|r] eqn:Hsend; simpl.
  - exists (if over then mark_failed (message_or e "Upload failed after max retries")
            else mark_pending (message_or e "Upload failed, will retry")), (S c), [].
    split; [destruct over; reflexivity|].
    assert (Hfin : exists msg,
              (if over then mark_failed (message_or e "Upload failed after max retries")
               else mark_pending (message_or e "Upload failed, will retry"))
              = if over then mark_failed msg else mark_pending msg).
    { exists (if over then message_or e "Upload failed after max retries"
              else message_or e "Upload failed, will retry").
      destruct over; reflexivity. }
    split; [right; exact Hfin|]. split; [reflexivity|].
    split; [discriminate | intros _; exact Hfin].
  - destruct (result_document r) as [fid|] eqn:Hdoc; simpl.
    + eexists mark_completed, _, [_]. rewrite <- app_assoc. simpl.
      split; [reflexivity|]. split; [left; reflexivity|].
      split; [reflexivity|]. split; [reflexivity | discriminate].
    + exists (if over
              then mark_failed (message_or (type_error E) "Upload failed after max retries")
              else mark_pending (message_or (type_error E) "Upload failed, will retry")),
             (S c), [].
      split; [destruct over; reflexivity|].
      assert (Hfin : exists msg,
                (if over
                 then mark_failed (message_or (type_error E) "Upload failed after max retries")
                 else mark_pending (message_or (type_error E) "Upload failed, will retry"))
                = if over then mark_failed msg else mark_pending msg).
      { exists (if over
                then message_or (type_error E) "Upload failed after max retries"
                else message_or (type_error E) "Upload failed, will retry").
        destruct over; reflexivity. }
      split; [right; exact Hfin|]. split; [reflexivity|].
      split; [discriminate | intros _; exact Hfin].
Qed.

(** The queue [processUpload] leaves persisted. *)
Lemma processUpload_persisted (upload : QueuedUpload) (w : World) :
  (findIndex (fun u => (id u =? id upload)%string) (loaded E w) = None ->
   persisted (exec (processUpload E upload) w) = persisted w) /\
  (forall i,
     findIndex (fun u => (id u =? id upload)%string) (loaded E w) = Some i ->
     loaded E w = persisted w /\
     exists now fin,
       transfer_outcome upload fin /\
       (persisted (exec (processUpload E upload) w) = persisted w \/
        persisted (exec (processUpload E upload) w)
        = update_at i (mark_uploading now) (persisted w) \/
        persisted (exec (processUpload E upload) w)
        = update_at i (fun u => fin (mark_uploading now u)) (persisted w)) /\
       ((forall n, setItem_rejects E n = false) ->
        persisted (exec (processUpload E upload) w)
        = update_at i (fun u => fin (mark_uploading now u)) (persisted w))).
Proof.
  unfold exec.
  destruct (processUpload E upload w) as [r w'] eqn:Hrun.
  unfold processUpload in Hrun. unfold bind at 1 in Hrun.
  rewrite getQueue_run in Hrun. split.
  - intros Hnone. rewrite Hnone in Hrun. injection Hrun as <- <-. reflexivity.
  - intros i Hfind. rewrite Hfind in Hrun.
    pose proof (loaded_found_persisted E _ _ _ Hfind) as Hload.
    split; [exact Hload|]. rewrite Hload in *.
    unfold bind at 1, Date_toISOString at 1, bind at 1, tick, ret in Hrun.
    simpl in Hrun.
    set (now := date_toISOString E (S (clock w))) in *.
    set (q1 := update_at i (mark_uploading now) (persisted w)) in *.
    set (w1 := with_clock _ _) in *.
    unfold bind at 1 in Hrun. rewrite saveQueue_run in Hrun.
    unfold bind at 1 in Hrun. rewrite notifyListeners_run in Hrun.
    unfold bind at 1 in Hrun.
    destruct (attempt_transfer_outcome upload i q1
                (after_notify q1 (after_save E q1 w1)))
      as (fin & c' & new & Hatt & Hout & _).
    rewrite Hatt in Hrun. set (w2 := mkWorld _ _ _ c' _ _) in *.
    unfold bind at 1 in Hrun.
    rewrite saveQueue_run, notifyListeners_run in Hrun.
    injection Hrun as <- <-.
    exists now, fin. split; [exact Hout|].
    assert (Hq2 : update_at i fin q1
                  = update_at i (fun u => fin (mark_uploading now u)) (persisted w)).
    { unfold q1. apply update_at_update_at. }
    unfold persisted at 1 3 5 7. simpl. split.
    + destruct (setItem_rejects E c'); simpl; [|right; right; exact Hq2].
      destruct (setItem_rejects E (S (S (clock w)))); simpl; auto.
    + intros Hset. rewrite Hset. exact Hq2.
Qed.

Lemma processUpload_keeps (upload : QueuedUpload) (w : World) :
  Forall2 keeps (persisted w) (persisted (exec (processUpload E upload) w)).
Proof.
  destruct (processUpload_persisted upload w) as [Hnone Hsome].
  destruct (findIndex (fun u => (id u =? id upload)%string) (loaded E w))
    as [i|] eqn:Hfind.
  - destruct (Hsome i eq_refl) as (_ & now & fin & Hout & [H|[H|H]] & _);
      rewrite H.
    + apply Forall2_refl_In. intros; apply keeps_refl.
    + apply Forall2_update_at; [apply keeps_refl | apply keeps_mark_uploading].
    + apply Forall2_update_at; [apply keeps_refl|].
      intros a. eapply keeps_transfer_outcome; eauto.
  - rewrite Hnone by reflexivity.
    apply Forall2_refl_In. intros; apply keeps_refl.
Qed.

Lemma drain_item_exec (upload : QueuedUpload) (w : World) :
  drain_item E upload w
  = (Ok tt, with_trace (trace (exec (processUpload E upload) w) ++ [EvDelay 1000])
                       (exec (processUpload E upload) w)).
Proof.
  destruct (processUpload_spec E upload w) as (new & w1 & Hrun & _).
  unfold drain_item, try_catch, bind, delay, emit, modify, exec.
  rewrite Hrun. reflexivity.
Qed.

Lemma drain_loop_keeps (l : list QueuedUpload) (w : World) :
  Forall2 keeps (persisted w) (persisted (exec (forEach (drain_item E) l) w)).
Proof.
  revert w. induction l as [|u l IH]; intros w.
  - apply Forall2_refl_In. intros; apply keeps_refl.
  - simpl. unfold exec, bind. rewrite drain_item_exec.
    set (w1 := with_trace _ (exec (processUpload E u) w)).
    apply Forall2_compose with (R1 := keeps) (R2 := keeps) (l2 := persisted w1).
    + apply (processUpload_keeps u w).
    + apply (IH w1).
    + intros a b c _. apply keeps_trans.
Qed.

End DrainEffect.

(** X11.  A drain never adds, removes or reorders items and never changes
    what identifies them: entry by entry, the queue persisted after an
    awaited [processQueue] has the [id], [file], [metadata] and [createdAt]
    of the queue persisted before, and no fewer [attempts], whatever the
    storage, the network and the transfers do. *)
Theorem processQueue_keeps_queue_shape (E : Env) (w : World) :
  Forall2 keeps (persisted w) (persisted (exec (processQueue E) w)) /\
  map id (persisted (exec (processQueue E) w)) = map id (persisted w) /\
  length (persisted (exec (processQueue E) w)) = length (persisted w).
Proof.
  assert (H : Forall2 keeps (persisted w) (persisted (exec (processQueue E) w))).
  { destruct (isProcessing w) eqn:Hp.
    - destruct (processQueue_inert E w (or_introl Hp))
        as (_ & Hst & _).
      unfold persisted at 2. rewrite Hst.
      apply Forall2_refl_In. intros; apply keeps_refl.
    - destruct (net_isConnected E (clock w)) eqn:Hnet.
      + destruct (processQueue_running E w Hp Hnet)
          as (new & w1 & Hrun & Hpq & _).
        unfold exec at 1. rewrite Hpq. simpl snd.
        change (persisted (with_isProcessing false w1)) with (persisted w1).
        match type of Hrun with
        | forEach _ ?l ?w0 = _ =>
            pose proof (drain_loop_keeps E l w0) as Hk;
            unfold exec in Hk; rewrite Hrun in Hk; exact Hk
        end.
      + destruct (processQueue_inert E w (or_intror Hnet))
          as (_ & Hst & _).
        unfold persisted at 2. rewrite Hst.
        apply Forall2_refl_In. intros; apply keeps_refl. }
  split; [exact H|]. split.
  - induction H as [|a b q q' (Hid & _) _ IH]; simpl; congruence.
  - symmetry. eapply Forall2_length; eauto.
Qed.

Lemma findIndex_app_first (t : string) (pre : Queue) (a : QueuedUpload)
    (rest : Queue) :
  (forall x, In x pre -> id x <> t) ->
  id a = t ->
  findIndex (fun u => (id u =? t)%string) (pre ++ a :: rest)
  = Some (length pre).
Proof.
  intros Hpre Ha. induction pre as [|x pre IH]; simpl.
  - rewrite Ha, String.eqb_refl. reflexivity.
  - assert (Hx : (id x =? t)%string = false).
    { apply String.eqb_neq. apply Hpre. simpl. auto. }
    rewrite Hx, IH; [reflexivity|]. intros y Hy. apply Hpre. simpl. auto.
Qed.

Lemma update_at_app_first {A} (f : A -> A) (pre : list A) (a : A)
    (rest : list A) :
  update_at (length pre) f (pre ++ a :: rest) = pre ++ f a :: rest.
Proof. induction pre as [|x pre IH]; simpl; congruence. Qed.

Lemma transfer_ok_iff (E : Env) (n : nat) (u : QueuedUpload) :
  transfer_ok E n u = true <-> transfer_succeeds E n u.
Proof.
  unfold transfer_ok, transfer_succeeds.
  destruct (sendDocument_result E n u) as [e|r].
  - split; [discriminate|]. intros (r & fid & Hr & _). discriminate.
  - destruct (result_document r) as [fid|] eqn:Hd.
    + split; [|reflexivity]. intros _. exists r, fid. auto.
    + split; [discriminate|]. intros (r' & fid & [= <-] & Hd'). congruence.
Qed.

Section DrainTransition.

Variable E : Env.
Hypothesis Hget : forall n, getItem_rejects E n = false.
Hypothesis Hset : forall n, setItem_rejects E n = false.

(** One [processUpload] of the item [a] that stands in the persisted queue
    after [pre], when the storage works. *)
Lemma processUpload_exact (a : QueuedUpload) (pre rest : Queue) (w : World) :
  persisted w = pre ++ a :: rest ->
  (forall x, In x pre -> id x <> id a) ->
  exists b,
    persisted (exec (processUpload E a) w) = pre ++ b :: rest /\
    clock (exec (processUpload E a) w)
    = (if transfer_ok E (3 + clock w) a then 6 + clock w else 5 + clock w) /\
    attempted_at E (clock w) a b.
Proof.
  intros Hq Hpre. unfold exec.
  destruct (processUpload E a w) as [r w'] eqn:Hrun.
  unfold processUpload in Hrun. unfold bind at 1 in Hrun.
  rewrite getQueue_run in Hrun.
  assert (Hl : loaded E w = pre ++ a :: rest).
  { unfold loaded. rewrite Hget. exact Hq. }
  rewrite Hl in Hrun.
  rewrite (findIndex_app_first (id a) pre a rest Hpre eq_refl) in Hrun.
  unfold bind at 1, Date_toISOString at 1, bind at 1, tick, ret in Hrun.
  simpl in Hrun.
  set (now := date_toISOString E (S (clock w))) in *.
  rewrite update_at_app_first in Hrun.
  set (q1 := pre ++ mark_uploading now a :: rest) in *.
  set (w1 := with_clock _ _) in *.
  unfold bind at 1 in Hrun. rewrite saveQueue_run in Hrun.
  unfold bind at 1 in Hrun. rewrite notifyListeners_run in Hrun.
  unfold bind at 1 in Hrun.
  destruct (attempt_transfer_outcome E a (length pre) q1
              (after_notify q1 (after_save E q1 w1)))
    as (fin & c' & new & Hatt & _ & Hc' & Hok & Hko).
  change (clock (after_notify q1 (after_save E q1 w1))) with (3 + clock w)
    in Hc', Hok, Hko.
  rewrite Hatt in Hrun.
  unfold bind at 1 in Hrun.
  rewrite saveQueue_run, notifyListeners_run in Hrun.
  injection Hrun as <- <-.
  exists (fin (mark_uploading now a)).
  assert (Hpers : persisted
            (after_notify (update_at (length pre) fin q1)
               (after_save E (update_at (length pre) fin q1)
                  (mkWorld (storage (after_notify q1 (after_save E q1 w1)))
                     (isProcessing (after_notify q1 (after_save E q1 w1)))
                     (listeners (after_notify q1 (after_save E q1 w1))) c'
                     (trace (after_notify q1 (after_save E q1 w1))
                      ++ EvSendDocument a :: new)
                     (tasks (after_notify q1 (after_save E q1 w1))))))
          = pre ++ fin (mark_uploading now a) :: rest).
  { unfold persisted. simpl. rewrite Hset. unfold q1.
    apply update_at_app_first. }
  split; [exact Hpers|]. clear Hpers.
  unfold attempted_at.
  destruct (transfer_ok E (3 + clock w) a) eqn:Hres.
  - split; [simpl; rewrite Hc'; reflexivity|].
    rewrite (Hok eq_refl). simpl. repeat split; reflexivity.
  - split; [simpl; rewrite Hc'; reflexivity|].
    destruct (Hko eq_refl) as [msg ->].
    destruct (MAX_RETRIES <=? attempts a); simpl;
      repeat split; try reflexivity; exists msg; reflexivity.
Qed.

Lemma drain_loop_exact (qs : Queue) :
  forall (pre : Queue) (w : World),
    persisted w = pre ++ qs ->
    NoDup (map id (pre ++ qs)) ->
    exists qs',
      persisted (exec (forEach (drain_item E) (filter eligible qs)) w)
      = pre ++ qs' /\
      drained E (clock w) qs qs'.
Proof.
  induction qs as [|a qs IH]; intros pre w Hq Hnd.
  - exists []. split; [exact Hq | exact I].
  - simpl filter. destruct (eligible a) eqn:He.
    + simpl forEach. unfold exec, bind. rewrite drain_item_exec.
      set (w1 := with_trace _ (exec (processUpload E a) w)).
      assert (Hpre : forall x, In x pre -> id x <> id a).
      { intros x Hx Hid. rewrite map_app in Hnd. simpl in Hnd.
        apply NoDup_remove_2 in Hnd. apply Hnd. apply in_or_app. left.
        rewrite <- Hid. apply in_map. exact Hx. }
      destruct (processUpload_exact a pre qs w Hq Hpre)
        as (b & Hp & Hc & Hat).
      assert (Hidb : id b = id a) by (destruct Hat as (Hid & _); exact Hid).
      destruct (IH (pre ++ [b]) w1) as (qs' & Hfinal & Hdr).
      { change (persisted w1) with (persisted (exec (processUpload E a) w)).
        rewrite Hp, <- app_assoc. reflexivity. }
      { rewrite <- app_assoc. simpl. rewrite map_app. simpl. rewrite Hidb.
        rewrite map_app in Hnd. exact Hnd. }
      exists (b :: qs'). split.
      * change (snd (forEach (drain_item E) (filter eligible qs) w1))
          with (exec (forEach (drain_item E) (filter eligible qs)) w1).
        rewrite Hfinal, <- app_assoc. reflexivity.
      * simpl. rewrite He. split; [exact Hat|].
        change (clock w1) with (clock (exec (processUpload E a) w)) in Hdr.
        rewrite Hc in Hdr. exact Hdr.
    + destruct (IH (pre ++ [a]) w) as (qs' & Hfinal & Hdr).
      { rewrite Hq, <- app_assoc. reflexivity. }
      { rewrite <- app_assoc. exact Hnd. }
      exists (a :: qs'). split.
      * rewrite Hfinal, <- app_assoc. reflexivity.
      * simpl. rewrite He. split; [reflexivity | exact Hdr].
Qed.

Lemma processQueue_exact (w : World) :
  isProcessing w = false ->
  net_isConnected E (clock w) = true ->
  NoDup (map id (persisted w)) ->
  drained E (2 + clock w) (persisted w) (persisted (exec (processQueue E) w)).
Proof.
  intros Hp Hnet Hnd.
  destruct (processQueue_running E w Hp Hnet) as (new & w1 & Hrun & Hpq & _).
  unfold exec at 1. rewrite Hpq. simpl snd.
  change (persisted (with_isProcessing false w1)) with (persisted w1).
  match type of Hrun with
  | forEach _ (filter eligible (loaded E ?wa)) ?wb = _ =>
      assert (Hl : loaded E wa = persisted w)
        by (rewrite (loaded_no_reject E wa Hget); reflexivity);
      rewrite Hl in Hrun;
      destruct (drain_loop_exact (persisted w) [] wb eq_refl Hnd)
        as (qs' & Hfinal & Hdr)
  end.
  unfold exec in Hfinal. rewrite Hrun in Hfinal. simpl in Hfinal.
  rewrite Hfinal. exact Hdr.
Qed.

End DrainTransition.

Lemma drained_not_uploading (E : Env) (q : Queue) :
  forall c q', drained E c q q' ->
  Forall2 (fun a b => eligible a = true -> status b <> uploading) q q'.
Proof.
  induction q as [|a q IH]; intros c [|b q'] H; simpl in H;
    try contradiction; [constructor|].
  destruct (eligible a) eqn:He.
  - destruct H as [Hat Hrest]. constructor; [|eapply IH; exact Hrest].
    intros _. destruct Hat as (_ & _ & _ & _ & _ & _ & Hst).
    destruct (transfer_ok E (3 + c) a).
    + destruct Hst as [-> _]. discriminate.
    + destruct Hst as [-> _]. destruct (MAX_RETRIES <=? attempts a); discriminate.
  - destruct H as [_ Hrest]. constructor; [|eapply IH; exact Hrest].
    intros Hf. congruence.
Qed.

Lemma drained_all_ok (E : Env) (q : Queue) :
  (forall n u, transfer_ok E n u = true) ->
  forall c q', drained E c q q' ->
  Forall2 (fun a b => (eligible a = true ->
                       status b = completed /\ error b = None /\
                       attempts b = attempts a + 1) /\
                      (eligible a = false -> b = a)) q q'.
Proof.
  intros Hok. induction q as [|a q IH]; intros c [|b q'] H; simpl in H;
    try contradiction; [constructor|].
  destruct (eligible a) eqn:He.
  - destruct H as [Hat Hrest]. constructor; [|eapply IH; exact Hrest].
    split; [|intros Hf; congruence]. intros _.
    destruct Hat as (_ & _ & _ & _ & Hatt & _ & Hst).
    rewrite Hok in Hst. destruct Hst as [Hs Herr]. auto.
  - destruct H as [-> Hrest]. constructor; [|eapply IH; exact Hrest].
    split; [intros Hf; congruence | reflexivity].
Qed.

(** X12.  With the storage working and the identifiers of the queue
    distinct, a drain that runs goes down the queue in order.  An item it
    does not select is left exactly as it was.  A selected item keeps its
    [id], [file], [metadata] and [createdAt], gets one more attempt and the
    current date as [lastAttempt], and is [completed] with no error when
    the [sendDocument] call the drain makes for it succeeds, and otherwise
    carries an error and is [failed] when it already had [MAX_RETRIES] or
    more attempts before the drain and [pending] when it had fewer.  The
    call for a selected item is the fourth outside call of its
    [processUpload]; the next item starts six calls after this one when
    the transfer succeeded and five when it failed.  No selected item is
    left [uploading]. *)
Theorem processQueue_item_transitions (E : Env) (w : World) :
  (forall n, getItem_rejects E n = false) ->
  (forall n, setItem_rejects E n = false) ->
  isProcessing w = false ->
  net_isConnected E (clock w) = true ->
  NoDup (map id (persisted w)) ->
  drained E (2 + clock w) (persisted w)
          (persisted (exec (processQueue E) w)) /\
  Forall2 (fun a b => eligible a = true -> status b <> uploading)
          (persisted w) (persisted (exec (processQueue E) w)).
Proof.
  intros Hget Hset Hp Hnet Hnd.
  pose proof (processQueue_exact E Hget Hset w Hp Hnet Hnd) as H.
  split; [exact H | exact (drained_not_uploading E _ _ _ H)].
Qed.

Lemma processQueue_item_transitions_witness :
  drained env_even_clock_succeeds 2
          [sample_upload "A" pending 3; sample_upload "B" completed 1;
           sample_upload "C" pending 0]
          (persisted (exec (processQueue env_even_clock_succeeds)
                        (world_of [sample_upload "A" pending 3;
                                   sample_upload "B" completed 1;
                                   sample_upload "C" pending 0]))).
Proof.
  apply (processQueue_item_transitions env_even_clock_succeeds
           (world_of [sample_upload "A" pending 3;
                      sample_upload "B" completed 1;
                      sample_upload "C" pending 0])); try reflexivity.
  simpl. repeat constructor; simpl; intuition discriminate.
Defined.

(** With transfers that succeed only at even clocks: the transfer of A is
    made at clock 5 and fails, that of C at clock 10 and succeeds. *)
Example drain_follows_the_clock :
  let w := exec (processQueue env_even_clock_succeeds)
                (world_of [sample_upload "A" pending 3;
                           sample_upload "B" completed 1;
                           sample_upload "C" pending 0]) in
  map status (persisted w) = [failed; completed; completed] /\
  map attempts (persisted w) = [4; 1; 1] /\
  map error (persisted w) = [Some "Network Error"; None; None].
Proof. cbv zeta. vm_compute. repeat split. Qed.

(** The relation is tied to the call the drain makes: with a loop that
    starts at clock 3 the transfer is made at clock 6 and succeeds, and an
    item left [pending] with an error is not an outcome of that drain. *)
Example drained_rejects_wrong_outcome :
  let a := sample_upload "A" pending 0 in
  drained env_even_clock_succeeds 3 [a]
          [mark_completed (mark_uploading "2024-01-02T00:00:00.000Z" a)] /\
  ~ drained env_even_clock_succeeds 3 [a]
            [mark_pending "Network Error"
               (mark_uploading "2024-01-02T00:00:00.000Z" a)].
Proof.
  cbv zeta. split.
  - simpl. unfold attempted_at. simpl. repeat split; reflexivity.
  - simpl. unfold attempted_at. simpl. intros [(_ & _ & _ & _ & _ & _ & H & _) _].
    discriminate H.
Qed.

Lemma sent_nil_of_no_member (l : list QueuedUpload) :
  (forall u, In u l -> False) -> l = [].
Proof. destruct l as [|a l]; [reflexivity|]. intros H. destruct (H a). simpl. auto. Qed.

(** X13.  With the storage working, the identifiers distinct and every
    transfer succeeding, a drain that runs leaves every selected item
    [completed] with no error and one more attempt and every other item as
    it was; after it no item is selectable, and a following drain, in
    whatever environment, transfers nothing. *)
Theorem successful_drain_completes_queue (E : Env) (w : World) :
  (forall n, getItem_rejects E n = false) ->
  (forall n, setItem_rejects E n = false) ->
  (forall n u, transfer_succeeds E n u) ->
  isProcessing w = false ->
  net_isConnected E (clock w) = true ->
  NoDup (map id (persisted w)) ->
  let w' := exec (processQueue E) w in
  Forall2 (fun a b => (eligible a = true ->
                       status b = completed /\ error b = None /\
                       attempts b = attempts a + 1) /\
                      (eligible a = false -> b = a))
          (persisted w) (persisted w') /\
  filter eligible (persisted w') = [] /\
  (forall E2, exists new,
     trace (exec (processQueue E2) w') = trace w' ++ new /\ sent new = []).
Proof.
  intros Hget Hset Hok Hp Hnet Hnd. cbv zeta.
  assert (Hall : forall n u, transfer_ok E n u = true).
  { intros n u. apply transfer_ok_iff. apply Hok. }
  assert (H : Forall2 (fun a b => (eligible a = true ->
                         status b = completed /\ error b = None /\
                         attempts b = attempts a + 1) /\
                        (eligible a = false -> b = a))
                (persisted w) (persisted (exec (processQueue E) w))).
  { eapply drained_all_ok; [exact Hall|].
    apply (processQueue_exact E Hget Hset w Hp Hnet Hnd). }
  assert (Hnone : filter eligible (persisted (exec (processQueue E) w)) = []).
  { clear - H. induction H as [|a b q q' [Hs Ho] _ IH]; simpl; [reflexivity|].
    assert (Hb : eligible b = false).
    { destruct (eligible a) eqn:He.
      - destruct (Hs eq_refl) as (Hst & _). unfold eligible. rewrite Hst.
        reflexivity.
      - rewrite (Ho eq_refl). exact He. }
    rewrite Hb. exact IH. }
  split; [exact H|]. split; [exact Hnone|].
  intros E2.
  destruct (processQueue_spec E2 (exec (processQueue E) w))
    as (new & w'' & Hrun & _ & Htr & _ & _ & Hin).
  exists new. unfold exec at 1. rewrite Hrun. simpl snd.
  split; [exact Htr|]. apply sent_nil_of_no_member.
  intros u Hu. specialize (Hin u Hu). rewrite Hnone in Hin. exact Hin.
Qed.

Lemma successful_drain_completes_queue_witness :
  map status (persisted (exec (processQueue env_online)
                           (world_of [sample_upload "A" pending 0;
                                      sample_upload "B" failed 3;
                                      sample_upload "C" failed 1])))
  = [completed; failed; completed] /\
  filter eligible (persisted (exec (processQueue env_online)
                                (world_of [sample_upload "A" pending 0;
                                           sample_upload "B" failed 3;
                                           sample_upload "C" failed 1])))
  = [].
Proof.
  assert (Hnd : NoDup (map id (persisted
            (world_of [sample_upload "A" pending 0;
                       sample_upload "B" failed 3;
                       sample_upload "C" failed 1])))).
  { simpl. repeat constructor; simpl; intuition discriminate. }
  destruct (successful_drain_completes_queue env_online
              (world_of [sample_upload "A" pending 0;
                         sample_upload "B" failed 3;
                         sample_upload "C" failed 1]))
    as (_ & Hnone & _); try reflexivity; try exact Hnd.
  - intros n u. exists (mkResponse (Some "BQACAgates")), "BQACAgates".
    split; reflexivity.
  - split; [reflexivity | exact Hnone].
Defined.

(** X14.  When the identifiers of the queue are distinct, an item that the
    filter of [processQueue] does not select ([completed], [uploading], or
    [failed] with [MAX_RETRIES] or more attempts) is never transferred by a
    drain and is in the persisted queue afterwards exactly as it was,
    whatever the storage, the network and the other transfers do: a
    completed upload is not submitted twice. *)
Theorem unselected_item_is_untouched (E : Env) (w : World) (y : QueuedUpload) :
  NoDup (map id (persisted w)) ->
  In y (persisted w) ->
  eligible y = false ->
  exists new,
    trace (exec (processQueue E) w) = trace w ++ new /\
    (forall u, In u (sent new) -> id u <> id y) /\
    In y (persisted (exec (processQueue E) w)).
Proof.
  intros Hnd Hy Hne.
  destruct (processQueue_spec E w)
    as (new & w' & Hrun & _ & Htr & _ & Hto & Hin).
  assert (Hsel : forall u, In u (filter eligible (persisted w)) -> id u <> id y).
  { intros u Hu Hid. apply filter_In in Hu. destruct Hu as [Hu He].
    assert (u = y) by (eapply NoDup_map_same; eauto). subst u. congruence. }
  exists new. unfold exec. rewrite Hrun. simpl.
  split; [assumption|].
  split; [intros u Hu; apply Hsel, Hin, Hu|].
  eapply touched_only_In; eauto.
  intros Hmem. apply in_map_iff in Hmem. destruct Hmem as [u [Hid Hu]].
  apply (Hsel u Hu Hid).
Qed.

Lemma unselected_item_is_untouched_witness :
  exists new,
    trace (exec (processQueue env_online)
             (world_of [sample_upload "A" pending 0;
                        sample_upload "B" completed 1]))
    = [] ++ new /\
    (forall u, In u (sent new) -> id u <> "B") /\
    In (sample_upload "B" completed 1)
       (persisted (exec (processQueue env_online)
                     (world_of [sample_upload "A" pending 0;
                                sample_upload "B" completed 1]))).
Proof.
  assert (Hnd : NoDup (map id (persisted
            (world_of [sample_upload "A" pending 0;
                       sample_upload "B" completed 1])))).
  { simpl. repeat constructor; simpl; intuition discriminate. }
  destruct (unselected_item_is_untouched env_online _
              (sample_upload "B" completed 1) Hnd)
    as (new & Htr & Hsent & Hin).
  - simpl. auto.
  - reflexivity.
  - exists new. split; [exact Htr|]. split; [exact Hsent | exact Hin].
Defined.

(* ===================================================================== *)
(** ** The Telegram client *)
(* ===================================================================== *)



Example uploadWithRetry_third_call_succeeds :
  let w := exec (uploadWithRetry env_third_transfer_succeeds
                   (sample_upload "X" pending 0)) (world_of []) in
  outcome (uploadWithRetry env_third_transfer_succeeds
             (sample_upload "X" pending 0)) (world_of [])
  = Ok (mkResponse (Some "BQACAgates")) /\
  length (sent (trace w)) = 3 /\
  delays (trace w) = [1000; 2000].
Proof. cbv zeta. vm_compute. repeat split. Qed.

Lemma js_or_not_empty (s : option string) (fallback : string) :
  fallback <> "" -> js_or s fallback <> "".
Proof.
  intros Hf. unfold js_or. destruct s as [m|]; [|exact Hf].
  destruct (m =? "")%string eqn:Hm; [exact Hf|].
  apply String.eqb_neq. exact Hm.
Qed.

(** X16.  The error [handleError] builds always has a message, and the
    message is never empty; so when [processUpload] catches an error that
    [sendDocument] threw, the text it stores in the item is that message
    and never one of its own fallback texts.  When the server answered with
    a description, the message is the description, whatever the error code
    and the error message are. *)
Theorem handleError_message_never_empty (error : AxiosError) :
  exists m,
    message (handleError error) = Some m /\
    m <> "" /\
    (forall fallback, message_or (handleError error) fallback = m) /\
    (forall r d, response error = Some r -> data_description r = Some d ->
                 d <> "" -> m = d).
Proof.
  assert (Hmsg : forall m, m <> "" ->
            forall fallback, message_or (mkExn (Some m)) fallback = m).
  { intros m Hm fallback. unfold message_or. simpl.
    apply String.eqb_neq in Hm. rewrite Hm. reflexivity. }
  unfold handleError.
  destruct (response error) as [r|] eqn:Hr.
  - eexists. split; [reflexivity|].
    assert (Hne : js_or (data_description r)
                    ("HTTP " ++ string_of_nat (http_status r) ++ " error")%string
                  <> "").
    { apply js_or_not_empty. discriminate. }
    split; [exact Hne|]. split; [apply Hmsg; exact Hne|].
    intros r' d [= <-] Hd Hdne. unfold js_or. rewrite Hd.
    apply String.eqb_neq in Hdne. rewrite Hdne. reflexivity.
  - destruct (code_is error "NETWORK_ERROR" || code_is error "ECONNABORTED").
    + eexists. split; [reflexivity|]. split; [discriminate|].
      split; [apply Hmsg; discriminate|]. intros r d Hc. discriminate Hc.
    + eexists. split; [reflexivity|].
      assert (Hne : js_or (error_message error) "Unknown error occurred" <> "").
      { apply js_or_not_empty. discriminate. }
      split; [exact Hne|]. split; [apply Hmsg; exact Hne|].
      intros r d Hc. discriminate Hc.
Qed.

Lemma handleError_message_never_empty_witness :
  exists m,
    message (handleError
               (mkAxiosError (Some (mkAxiosResponse 413 (Some "Request Entity Too Large")))
                             (Some "ERR_BAD_REQUEST") (Some "Request failed")))
    = Some m /\
    m = "Request Entity Too Large".
Proof.
  destruct (handleError_message_never_empty
              (mkAxiosError (Some (mkAxiosResponse 413 (Some "Request Entity Too Large")))
                            (Some "ERR_BAD_REQUEST") (Some "Request failed")))
    as (m & Hm & _ & _ & Hd).
  exists m. split; [exact Hm|].
  apply (Hd (mkAxiosResponse 413 (Some "Request Entity Too Large"))
            "Request Entity Too Large"); try reflexivity.
  discriminate.
Defined.

Example handleError_without_description :
  message (handleError (mkAxiosError (Some (mkAxiosResponse 502 None)) None None))
  = Some "HTTP 502 error" /\
  message (handleError (mkAxiosError None (Some "ECONNABORTED")
                                     (Some "timeout of 60000ms exceeded")))
  = Some "Network error. Please check your connection." /\
  message (handleError (mkAxiosError None None (Some "")))
  = Some "Unknown error occurred".
Proof. repeat split. Qed.

(* ===================================================================== *)
(** ** The database service *)
(* ===================================================================== *)

(** X17.  [openDatabase], [insertFile] and [deleteFile] never throw,
    whatever the engine does.  Without a handle [insertFile] and
    [deleteFile] do nothing at all.  When [SQLite.openDatabase] rejects,
    the handle and the statements run stay as they were; so after a first
    [openDatabase] that failed, [insertFile] returns normally and no
    statement has been run: the record is dropped without an error. *)
Theorem database_calls_never_throw (V : DbEnv) (s : DbState)
    (m : FileMetadata) (fileId : string) :
  fst (openDatabase V s) = Ok tt /\
  fst (insertFile V m s) = Ok tt /\
  fst (deleteFile V fileId s) = Ok tt /\
  (db s = None ->
   insertFile V m s = (Ok tt, s) /\ deleteFile V fileId s = (Ok tt, s)) /\
  (openDatabase_rejects V (db_clock s) = true ->
   db (snd (openDatabase V s)) = db s /\
   executed (snd (openDatabase V s)) = executed s) /\
  (db s = None -> openDatabase_rejects V (db_clock s) = true ->
   fst (insertFile V m (snd (openDatabase V s))) = Ok tt /\
   executed (snd (insertFile V m (snd (openDatabase V s)))) = executed s).
Proof.
  destruct s as [h c ex].
  unfold openDatabase, insertFile, deleteFile, createTables, SQLite_openDatabase,
    executeSql, db_try_catch, db_bind, db_ret; simpl.
  split.
  { destruct (openDatabase_rejects V c); simpl; [reflexivity|].
    destruct (executeSql_rejects V (S c)); simpl; [reflexivity|].
    destruct (executeSql_rejects V (S (S c))); reflexivity. }
  split.
  { destruct h; [|reflexivity]. destruct (executeSql_rejects V c); reflexivity. }
  split.
  { destruct h; [|reflexivity]. destruct (executeSql_rejects V c); reflexivity. }
  split.
  { intros ->. split; reflexivity. }
  split.
  { intros ->. simpl. split; reflexivity. }
  intros -> ->. simpl. split; reflexivity.
Qed.

Lemma database_calls_never_throw_witness :
  executed (snd (insertFile db_env_open_fails
                   (mkFileMetadata "BQACAgates" "report.pdf" "application/pdf"
                      2048 "work" "documents" "2024-01-02T00:00:00.000Z"
                      "alice" "-100200300")
                   (snd (openDatabase db_env_open_fails db_initial))))
  = [].
Proof.
  apply (database_calls_never_throw db_env_open_fails db_initial
           (mkFileMetadata "BQACAgates" "report.pdf" "application/pdf"
              2048 "work" "documents" "2024-01-02T00:00:00.000Z"
              "alice" "-100200300") "BQACAgates"); reflexivity.
Defined.

(** When the engine works, [openDatabase] creates the two tables and keeps
    the new handle, and an [insertFile] after it runs exactly one more
    statement, the insert-or-replace of the record it was given. *)
Lemma insertFile_after_open_runs_insert (V : DbEnv) (s : DbState)
    (m : FileMetadata) :
  (forall n, openDatabase_rejects V n = false) ->
  (forall n, executeSql_rejects V n = false) ->
  executed (snd (openDatabase V s))
  = executed s ++ [SqlCreateFilesTable; SqlCreateGroupsTable] /\
  db (snd (openDatabase V s)) = Some (db_clock s) /\
  executed (snd (insertFile V m (snd (openDatabase V s))))
  = executed (snd (openDatabase V s)) ++ [SqlInsertOrReplaceFile m].
Proof.
  intros Hopen Hexec. destruct s as [h c ex].
  unfold openDatabase, insertFile, createTables, SQLite_openDatabase,
    executeSql, db_try_catch, db_bind, db_ret; simpl.
  rewrite Hopen. simpl. repeat (rewrite ?Hexec; simpl).
  rewrite <- ?app_assoc. repeat split; reflexivity.
Qed.
